(** * form-builder: the form data model of [forms.py] and its serializers

    A shallow embedding of [src/forms.py]: the [FormItem] / [Group] / [Form]
    records, the HTML renderers, the hook runner over the module namespace,
    the front-matter export and the construction of a form from a nested
    specification mapping.

    A Python string is modelled as a [string], the bytes of its UTF-8
    encoding: concatenation, equality, the replacement of a space and the
    occurrences of a text are those of the string.  [str.lower], which
    follows the Unicode case mapping, is not written out: the code that
    calls it takes it as the parameter [lower], of which only the effect on
    ASCII text is ever assumed ([agrees_on_ascii]).  Python dictionaries
    are [gmap]s, Python sets are [gset]s.  Code that mutates an
    object in place is written in state-passing style: a method returns the
    object after the call next to its outcome, and the mutations made before
    an exception was raised are kept. *)

From Stdlib Require Import Ascii String.
From stdpp Require Import gmap strings list fin_maps.

Set Warnings "-register-all".

(** ** Exceptions and outcomes *)

Inductive PyError : Type :=
| KeyError (key : string)
| TypeError
| AttributeError
| ValueError
| ValidationError.

Inductive result (A : Type) : Type :=
| Ok (a : A)
| Raise (e : PyError).
Arguments Ok {A} a.
Arguments Raise {A} e.

Definition is_lookup_error (e : PyError) : bool :=
  match e with KeyError _ => true | _ => false end.

Definition raises_lookup_error {A} (r : result A) : bool :=
  match r with Raise e => is_lookup_error e | Ok _ => false end.

Definition returns {A} (r : result A) : bool :=
  match r with Ok _ => true | Raise _ => false end.

(** ** The result monad *)

Global Instance result_ret : MRet result := λ A a, Ok a.
Global Instance result_bind : MBind result :=
  λ A B f m, match m with Ok a => f a | Raise e => Raise e end.
Global Instance result_fmap : FMap result :=
  λ A B f m, match m with Ok a => Ok (f a) | Raise e => Raise e end.

(** ** Values

    [FormItem.value] is declared [str] and validated on construction, but
    [_run_hooks] assigns to it whatever the called global returns.  The only
    global of the module that returns something else than a string is
    [ConfigDict], a [TypedDict] class: called on the empty string it builds
    the empty dictionary. *)

Inductive pyval : Type :=
| VStr (s : string)
| VEmptyDict.

Global Instance pyval_eq_dec : EqDecision pyval.
Proof. solve_decision. Defined.

(** [str(v)], what an f-string writes for [{v}]. *)
Definition py_str (v : pyval) : string :=
  match v with
  | VStr s => s
  | VEmptyDict => "{}"
  end.

(** ** Specifications

    The input of [load_from_specification] is a nested structure of
    dictionaries, lists and scalars, as a parsed JSON or YAML document.  A
    dictionary is kept as its list of items; [dict_get] reads a key. *)

Inductive pyobj : Type :=
| OStr (s : string)
| OInt (n : Z)
| OBool (b : bool)
| ONone
| OList (l : list pyobj)
| ODict (d : list (string * pyobj)).

Fixpoint dict_get (k : string) (d : list (string * pyobj)) : option pyobj :=
  match d with
  | [] => None
  | (k', o) :: d' => if decide (k = k') then Some o else dict_get k d'
  end.

(** *** Field validation, as pydantic does it for the declared types

    A [str] field takes a string, a [List[...]] field a list whose elements
    validate, a model field a dictionary that validates; a key that is not
    a field is ignored, an absent field takes its default, and an absent
    field without default or a value of another type is a
    [ValidationError]. *)

Definition validate_str (o : pyobj) : result string :=
  match o with
  | OStr s => Ok s
  | _ => Raise ValidationError
  end.

Fixpoint validate_each {A} (validate : pyobj → result A) (l : list pyobj)
    : result (list A) :=
  match l with
  | [] => Ok []
  | o :: l' =>
      match validate o, validate_each validate l' with
      | Ok a, Ok l'' => Ok (a :: l'')
      | _, _ => Raise ValidationError
      end
  end.

Definition validate_list {A} (validate : pyobj → result A) (o : pyobj)
    : result (list A) :=
  match o with
  | OList l => validate_each validate l
  | _ => Raise ValidationError
  end.

Definition required {A} (validate : pyobj → result A) (k : string)
    (d : list (string * pyobj)) : result A :=
  match dict_get k d with
  | Some o => validate o
  | None => Raise ValidationError
  end.

Definition optional {A} (validate : pyobj → result A) (k : string)
    (d : list (string * pyobj)) (default : A) : result A :=
  match dict_get k d with
  | Some o => validate o
  | None => Ok default
  end.

(** What the class bodies compute once, when the module is executed:
    [id: str = str(uuid.uuid4())] in [FormItem] and in [Form], and the
    metadata of the post [frontmatter.loads("")] that is the default of
    [Form.front_matter]. *)
Record ClassDefaults : Type := mkClassDefaults {
  FormItem_id : string;
  Form_id : string;
  Form_front_matter : gmap string pyval
}.

(** Executing the two class bodies draws two identifiers. *)
Definition define_classes (uuid4_first uuid4_second : string) : ClassDefaults :=
  mkClassDefaults uuid4_first uuid4_second ∅.

(** ** String methods *)

Definition ascii_lower (c : ascii) : ascii :=
  let n := nat_of_ascii c in
  if (65 <=? n)%nat && (n <=? 90)%nat then ascii_of_nat (n + 32) else c.

(** What [s.lower()] gives for a string of ASCII characters: the letters
    A-Z folded, every other character kept. *)
Fixpoint lower_ascii (s : string) : string :=
  match s with
  | EmptyString => EmptyString
  | String c s' => String (ascii_lower c) (lower_ascii s')
  end.

(** [s.replace(old, new)] for a one-character [old]. *)
Fixpoint str_replace (old : ascii) (new : string) (s : string) : string :=
  match s with
  | EmptyString => EmptyString
  | String c s' =>
      if decide (c = old) then new +:+ str_replace old new s'
      else String c (str_replace old new s')
  end.

(** [def slugify(value): return value.replace(" ", "-").lower()] *)
Definition slugify (lower : string → string) (value : string) : string :=
  lower (str_replace " "%char "-" value).

(** The character of the slug of an ASCII string at each position, read
    off the input. *)
Definition slug_char (c : ascii) : ascii :=
  if decide (c = " "%char) then "-"%char else ascii_lower c.

Fixpoint str_map (f : ascii → ascii) (s : string) : string :=
  match s with
  | EmptyString => EmptyString
  | String c s' => String (f c) (str_map f s')
  end.

Fixpoint str_in (c : ascii) (s : string) : bool :=
  match s with
  | EmptyString => false
  | String c' s' => bool_decide (c = c') || str_in c s'
  end.

Definition is_upper (c : ascii) : bool :=
  (65 <=? nat_of_ascii c)%nat && (nat_of_ascii c <=? 90)%nat.

Fixpoint str_forall (p : ascii → bool) (s : string) : bool :=
  match s with
  | EmptyString => true
  | String c s' => p c && str_forall p s'
  end.

(** A string of ASCII characters only. *)
Definition is_ascii (s : string) : bool :=
  str_forall (λ c, (nat_of_ascii c <? 128)%nat) s.

(** All that is assumed of [str.lower]: on ASCII text it folds A-Z. *)
Definition agrees_on_ascii (lower : string → string) : Prop :=
  ∀ s, is_ascii s = true → lower s = lower_ascii s.

(** [value.replace(" ", "-")], character by character. *)
Definition hyphenate (c : ascii) : ascii :=
  if decide (c = " "%char) then "-"%char else c.


(** ** Module constants *)

(** [HTML_TYPE = {"text", "number", "email", "submit", "textarea"}] *)
Definition HTML_TYPE : gset string :=
  {[ "text"; "number"; "email"; "submit"; "textarea" ]}.

(** [CONTROL_TYPES = {"submit"}] *)
Definition CONTROL_TYPES : gset string := {[ "submit" ]}.

(** *** Format strings

    An f-string (or a [str.format] template) is a sequence of literal pieces
    and replacement fields.  [Q] is the double-quote character of the
    literal text. *)

Inductive field : Type := f_id | f_name | f_value | f_placeholder.

Global Instance field_eq_dec : EqDecision field.
Proof. solve_decision. Defined.

Inductive piece : Type :=
| Lit (s : string)
| Q
| Fld (f : field).

Global Instance piece_eq_dec : EqDecision piece.
Proof. solve_decision. Defined.

Definition double_quote : string := String (ascii_of_nat 34) EmptyString.

Definition piece_text (get : field → string) (p : piece) : string :=
  match p with
  | Lit s => s
  | Q => double_quote
  | Fld f => get f
  end.

Fixpoint format (get : field → string) (tpl : list piece) : string :=
  match tpl with
  | [] => EmptyString
  | p :: tpl' => piece_text get p +:+ format get tpl'
  end.

(** The [<input>] renderers differ in the [type] attribute only. *)
Definition input_control (ty : string) : list piece :=
  [ Lit "<input type="; Q; Lit ty; Q;
    Lit " id="; Q; Fld f_id; Q;
    Lit " name="; Q; Fld f_name; Q;
    Lit " value="; Q; Fld f_value; Q;
    Lit " placeholder="; Q; Fld f_placeholder; Q; Lit ">" ].

Definition button_control : list piece :=
  [ Lit "<button id="; Q; Fld f_id; Q;
    Lit " name="; Q; Fld f_name; Q; Lit ">";
    Fld f_value; Lit "</button>" ].

Definition textarea_control : list piece :=
  [ Lit "<textarea id="; Q; Fld f_id; Q;
    Lit " name="; Q; Fld f_name; Q;
    Lit " placeholder="; Q; Fld f_placeholder; Q; Lit ">";
    Fld f_value; Lit "</textarea>" ].

(** [RENDER_FUNCTIONS]: each entry is [lambda x: f'...'], kept as the
    f-string it formats. *)
Definition RENDER_FUNCTIONS : gmap string (list piece) :=
  list_to_map
    [ ("text", input_control "text");
      ("number", input_control "number");
      ("email", input_control "email");
      ("submit", button_control);
      ("textarea", textarea_control) ].

(** ** The module namespace, [globals()]

    [_run_hooks] resolves a hook name in the namespace of the module and
    calls what it finds with the current value. *)

Inductive GlobalObj : Type :=
| GCallable (call : pyval → result pyval)
| GNotCallable.

(** [o(arg)] *)
Definition py_call (o : GlobalObj) (arg : pyval) : result pyval :=
  match o with
  | GCallable call => call arg
  | GNotCallable => Raise TypeError
  end.

(** [slugify] as a global: on a value that is not a string the attribute
    lookup [value.replace] fails. *)
Definition slugify_global (lower : string → string) : GlobalObj :=
  GCallable (λ v, match v with
                  | VStr s => Ok (VStr (slugify lower s))
                  | VEmptyDict => Raise AttributeError
                  end).

(** The pydantic model classes and the [typing] aliases are callable, but
    not with one positional argument. *)
Definition rejects_positional : GlobalObj := GCallable (λ _, Raise TypeError).

(** [ConfigDict] is a [TypedDict]: calling it is calling [dict]. *)
Definition ConfigDict_global : GlobalObj :=
  GCallable (λ v, match v with
                  | VStr EmptyString => Ok VEmptyDict
                  | VStr _ => Raise ValueError
                  | VEmptyDict => Ok VEmptyDict
                  end).

(** The names the file itself binds in its namespace once it has run: the
    imports, the constants, [slugify], the classes and the variables of the
    script at the end of the file. *)
Definition source_globals (lower : string → string) : list (string * GlobalObj) :=
  [ ("uuid", GNotCallable);
    ("Callable", rejects_positional); ("Dict", rejects_positional);
    ("List", rejects_positional); ("Tuple", rejects_positional);
    ("Union", rejects_positional);
    ("frontmatter", GNotCallable);
    ("BaseModel", rejects_positional); ("ConfigDict", ConfigDict_global);
    ("HTML_TYPE", GNotCallable); ("CONTROL_TYPES", GNotCallable);
    ("RENDER_FUNCTIONS", GNotCallable); ("HTML_TEMPLATE", GNotCallable);
    ("slugify", slugify_global lower);
    ("FormItem", rejects_positional); ("Group", rejects_positional);
    ("Form", rejects_positional);
    ("spec", GNotCallable); ("forms", GNotCallable);
    ("forms_as_dict", GNotCallable); ("id", GNotCallable);
    ("form", GNotCallable) ].

(** [globals()] of the module.  Besides the names of the file it holds the
    names the interpreter binds in every module ([__name__], [__doc__],
    [__file__], [__cached__], [__builtins__], ...; which ones depends on the
    version of the interpreter and on whether the file is run as a script).
    They are the parameter [ambient]; each is bound to something that
    cannot be called with a value: a string, [None], a loader, the
    builtins.  A name the file binds itself holds what the file bound it
    to. *)
Definition module_globals (lower : string → string) (ambient : list string)
    : gmap string GlobalObj :=
  list_to_map (source_globals lower ++ ((λ k, (k, GNotCallable)) <$> ambient)).

(** The names of the interpreter are written between double underscores. *)
Definition is_dunder (k : string) : bool := String.prefix "__" k.

(** Those of a module loaded from a file. *)
Definition file_module_names : list string :=
  [ "__name__"; "__doc__"; "__package__"; "__loader__"; "__spec__";
    "__file__"; "__cached__"; "__builtins__" ].

(** ** FormItem *)

Module FormItem.

Record t : Type := mk {
  name : string;
  value : pyval;
  placeholder : string;
  html_type : string;
  id : string;
  hooks : list string
}.

(** [x.value = v] *)
Definition set_value (x : t) (v : pyval) : t :=
  mk (name x) v (placeholder x) (html_type x) (id x) (hooks x).

(** What a replacement field [{x.<field>}] writes. *)
Definition get (x : t) (f : field) : string :=
  match f with
  | f_id => id x
  | f_name => name x
  | f_value => py_str (value x)
  | f_placeholder => placeholder x
  end.

(** ["<label for='{id}'>{name}</label>{control}"], up to [{control}]. *)
Definition label : list piece :=
  [ Lit "<label for='"; Fld f_id; Lit "'>"; Fld f_name; Lit "</label>" ].

(** [_serialize_as_html]: the arguments of [str.format] are evaluated first,
    so an unknown [html_type] raises [KeyError] from the dictionary lookup. *)
Definition _serialize_as_html (x : t) : result string :=
  match RENDER_FUNCTIONS !! html_type x with
  | None => Raise (KeyError (html_type x))
  | Some control => Ok (format (get x) label +:+ format (get x) control)
  end.

(** [_run_hooks]: [for hook in self.hooks: self.value = globals()[hook](self.value)].
    The loop over the remaining hooks, on the current value; the value
    assigned so far is kept when a lookup or a call raises. *)
Fixpoint run_hooks_from (G : gmap string GlobalObj) (hs : list string)
    (v : pyval) : pyval * result () :=
  match hs with
  | [] => (v, Ok ())
  | hook :: hs' =>
      match G !! hook with
      | None => (v, Raise (KeyError hook))
      | Some o =>
          match py_call o v with
          | Raise e => (v, Raise e)
          | Ok v' => run_hooks_from G hs' v'
          end
      end
  end.

Definition _run_hooks (G : gmap string GlobalObj) (x : t) : t * result () :=
  let '(v, r) := run_hooks_from G (hooks x) (value x) in (set_value x v, r).

(** The constructor [FormItem], called with the items of [d] as keyword
    arguments.  The fields as declared:
    [name: str], [value: str = ""], [placeholder: str = ""],
    [html_type: str = "text"], [id: str = <class default>],
    [hooks: List[str] = []]. *)
Definition validate (D : ClassDefaults) (o : pyobj) : result t :=
  match o with
  | ODict d =>
      match required validate_str "name" d,
            optional validate_str "value" d "",
            optional validate_str "placeholder" d "",
            optional validate_str "html_type" d "text",
            optional validate_str "id" d (FormItem_id D),
            optional (validate_list validate_str) "hooks" d [] with
      | Ok n, Ok v, Ok p, Ok ty, Ok i, Ok hs => Ok (mk n (VStr v) p ty i hs)
      | _, _, _, _, _, _ => Raise ValidationError
      end
  | _ => Raise ValidationError
  end.

End FormItem.

(** ** Group *)

Module Group.

Record t : Type := mk {
  name : string;
  items : list FormItem.t
}.

(** The constructor [Group]: [name: str], [items: List[FormItem]]. *)
Definition validate (D : ClassDefaults) (o : pyobj) : result t :=
  match o with
  | ODict d =>
      match required validate_str "name" d,
            required (validate_list (FormItem.validate D)) "items" d with
      | Ok n, Ok its => Ok (mk n its)
      | _, _ => Raise ValidationError
      end
  | _ => Raise ValidationError
  end.

End Group.

(** ** Form *)

(** The [front_matter] field is annotated [str], and its default is the
    [Post] object [frontmatter.loads("")]: a form holds either a post, whose
    metadata is a dictionary, or a string given to the constructor. *)
Inductive FrontMatter : Type :=
| Post (metadata : gmap string pyval)
| FrontMatterStr (s : string).

Module Form.

Record t : Type := mk {
  name : string;
  groups : list Group.t;
  front_matter : FrontMatter;
  id : string
}.

(** The inner loop of [_serialize_as_html]:
    [for item in group.items: html += item._serialize_as_html()]. *)
Fixpoint html_items (items : list FormItem.t) (html : string) : result string :=
  match items with
  | [] => Ok html
  | item :: items' =>
      h ← FormItem._serialize_as_html item;
      html_items items' (html +:+ h)
  end.

(** The outer loop, [for group in self.groups: ...]. *)
Fixpoint html_groups (groups : list Group.t) (html : string) : result string :=
  match groups with
  | [] => Ok html
  | group :: groups' =>
      html ← html_items (Group.items group)
               (html +:+ "<div class='group' id='" +:+ Group.name group +:+ "'>");
      html_groups groups' (html +:+ "</div>")
  end.

Definition _serialize_as_html (self : t) : result string :=
  html ← html_groups (groups self)
           ("<h1>" +:+ name self +:+ "</h1><form action='/" +:+ id self
              +:+ "' method='POST'>");
  Ok (html +:+ "</form>").

(** The inner loop of [_serialize_as_front_matter] over the items of one
    group: the items as the loop leaves them, the metadata as written so
    far, and whether a hook raised. *)
Fixpoint front_matter_items (lower : string → string)
    (G : gmap string GlobalObj)
    (items : list FormItem.t) (md : gmap string pyval)
    : list FormItem.t * gmap string pyval * result () :=
  match items with
  | [] => ([], md, Ok ())
  | item :: items' =>
      if bool_decide (FormItem.html_type item ∈ CONTROL_TYPES) then
        let '(items'', md', r) := front_matter_items lower G items' md in
        (item :: items'', md', r)
      else
        let '(item', r) := FormItem._run_hooks G item in
        match r with
        | Raise e => (item' :: items', md, Raise e)
        | Ok _ =>
            let '(items'', md', r') :=
              front_matter_items lower G items'
                (<[lower (FormItem.name item') := FormItem.value item']> md) in
            (item' :: items'', md', r')
        end
  end.

Fixpoint front_matter_groups (lower : string → string)
    (G : gmap string GlobalObj)
    (groups : list Group.t) (md : gmap string pyval)
    : list Group.t * gmap string pyval * result () :=
  match groups with
  | [] => ([], md, Ok ())
  | group :: groups' =>
      let '(items', md', r) :=
        front_matter_items lower G (Group.items group) md in
      let group' := Group.mk (Group.name group) items' in
      match r with
      | Raise e => (group' :: groups', md', Raise e)
      | Ok _ =>
          let '(groups'', md'', r') :=
            front_matter_groups lower G groups' md' in
          (group' :: groups'', md'', r')
      end
  end.

(** [_serialize_as_front_matter]: [front_matter] is the form's own object,
    written in place; item assignment on a string raises [TypeError]. *)
Definition _serialize_as_front_matter (lower : string → string)
    (G : gmap string GlobalObj) (self : t)
    : t * result (gmap string pyval) :=
  match front_matter self with
  | FrontMatterStr _ => (self, Raise TypeError)
  | Post md =>
      let '(groups', md', r) :=
        front_matter_groups lower G (groups self)
          (<["form_name" := VStr (name self)]> md) in
      (mk (name self) groups' (Post md') (id self),
       match r with Ok _ => Ok md' | Raise e => Raise e end)
  end.

(** The constructor [Form]: [name: str], [groups: List[Group]],
    [front_matter: str = <the default post>], [id: str = <class default>]. *)
Definition init (D : ClassDefaults) (d : list (string * pyobj)) : result t :=
  match required validate_str "name" d,
        required (validate_list (Group.validate D)) "groups" d,
        optional (λ o, FrontMatterStr <$> validate_str o) "front_matter" d
          (Post (Form_front_matter D)),
        optional validate_str "id" d (Form_id D) with
  | Ok n, Ok gs, Ok fm, Ok i => Ok (mk n gs fm i)
  | _, _, _, _ => Raise ValidationError
  end.

(** [load_from_specification(cls, specification)] calls [cls] with the
    specification unpacked as keyword arguments; unpacking something that
    is not a mapping is a [TypeError]. *)
Definition load_from_specification (D : ClassDefaults) (specification : pyobj)
    : result t :=
  match specification with
  | ODict d => init D d
  | _ => Raise TypeError
  end.

End Form.


(** ** Vocabulary of the properties *)


(** How often the replacement field [f] stands in a template. *)
Definition slots (f : field) (tpl : list piece) : nat :=
  length (filter (λ p, p = Fld f) tpl).

(** The whole template of an item of type [ty]: the label, then the control. *)
Definition item_template (ty : string) : option (list piece) :=
  (λ control, FormItem.label ++ control) <$> RENDER_FUNCTIONS !! ty.


(** The first field of the example specification, with an identifier and a
    placeholder of its own. *)
Definition title_item : FormItem.t :=
  FormItem.mk "Title" (VStr "Coffee") "Your title" "text" "item-1" [].

(** [''.join(l)] *)
Definition str_concat (l : list string) : string := foldr String.append EmptyString l.

(** The items of a form, in group order and item order. *)
Definition all_items (groups : list Group.t) : list FormItem.t :=
  concat (Group.items <$> groups).

(** The type of the first item, in that order, that has no renderer. *)
Definition first_unsupported (items : list FormItem.t) : option string :=
  head (filter (λ ty, ty ∉ HTML_TYPE) (FormItem.html_type <$> items)).

(** The fragment an item renders to (empty when it has no renderer). *)
Definition item_html (x : FormItem.t) : string :=
  match FormItem._serialize_as_html x with
  | Ok h => h
  | Raise _ => EmptyString
  end.

(** The wrapper element of a group around the fragments of its items. *)
Definition group_wrapper (g : Group.t) : string :=
  "<div class='group' id='" +:+ Group.name g +:+ "'>"
    +:+ str_concat (item_html <$> Group.items g) +:+ "</div>".

(** The heading, then the form element around the wrappers of the groups. *)
Definition form_html (f : Form.t) : string :=
  "<h1>" +:+ Form.name f +:+ "</h1><form action='/" +:+ Form.id f
    +:+ "' method='POST'>"
    +:+ str_concat (group_wrapper <$> Form.groups f) +:+ "</form>".

(** C2 as stated: the form renders, and to [form_html]. *)
Definition renders_wrappers (f : Form.t) : Prop :=
  ∃ html, Form._serialize_as_html f = Ok html ∧ html = form_html f.

(** A form whose only field has a type without renderer. *)
Definition date_form : Form.t :=
  Form.mk "Booking"
    [ Group.mk "When" [ FormItem.mk "Day" (VStr "") "" "date" "item-1" [] ] ]
    (Post ∅) "form-1".

(** *** Hooks, declaratively

    [apply_hooks G hs v] folds the named hooks over [v]: every name must be
    bound in [G] and every call must return. *)
Definition apply_hook (G : gmap string GlobalObj) (acc : option pyval)
    (hook : string) : option pyval :=
  v ← acc;
  o ← G !! hook;
  match py_call o v with Ok v' => Some v' | Raise _ => None end.

Definition apply_hooks (G : gmap string GlobalObj) (hs : list string)
    (v : pyval) : option pyval :=
  foldl (apply_hook G) (Some v) hs.

(** C8 as stated: the run fails with a lookup error exactly when some hook
    name of the item is not registered. *)
Definition lookup_error_iff_unregistered (G : gmap string GlobalObj)
    (x : FormItem.t) : Prop :=
  raises_lookup_error (FormItem._run_hooks G x).2 = true
  ↔ ∃ hook, hook ∈ FormItem.hooks x ∧ G !! hook = None.

(** An item whose first hook names a constant of the module and whose
    second hook names nothing. *)
Definition constant_hook_item : FormItem.t :=
  FormItem.mk "Slug" (VStr "POST EXAMPLE") "" "text" "item-1"
    [ "HTML_TYPE"; "no_such_hook" ].

(** *** The front-matter export, declaratively *)

(** The items the export records: those that are not controls. *)
Definition exported (items : list FormItem.t) : list FormItem.t :=
  filter (λ x, FormItem.html_type x ∉ CONTROL_TYPES) items.

(** The value of an item once its hooks have run (as far as they run). *)
Definition hooked_value (G : gmap string GlobalObj) (x : FormItem.t) : pyval :=
  FormItem.value (FormItem._run_hooks G x).1.

(** The error the hooks of an item raise, if they do. *)
Definition hook_error (G : gmap string GlobalObj) (x : FormItem.t)
    : option PyError :=
  match (FormItem._run_hooks G x).2 with
  | Ok _ => None
  | Raise e => Some e
  end.

(** An item as one export leaves it: a control as it was, any other item
    with the value its hooks produced. *)
Definition after_hooks (G : gmap string GlobalObj) (x : FormItem.t) : FormItem.t :=
  if bool_decide (FormItem.html_type x ∈ CONTROL_TYPES) then x
  else FormItem.set_value x (hooked_value G x).

Definition group_after_hooks (G : gmap string GlobalObj) (g : Group.t) : Group.t :=
  Group.mk (Group.name g) (after_hooks G <$> Group.items g).

(** The error of the first recorded item whose hooks raise. *)
Definition first_hook_error (G : gmap string GlobalObj)
    (items : list FormItem.t) : option PyError :=
  head (omap (hook_error G) (exported items)).

(** The assignments [front_matter[key] = value] of the loop, in order. *)
Definition writes (lower : string → string) (G : gmap string GlobalObj)
    (items : list FormItem.t) : list (string * pyval) :=
  (λ x, (lower (FormItem.name x), hooked_value G x)) <$> exported items.

Definition write_all (ws : list (string * pyval)) (md : gmap string pyval)
    : gmap string pyval :=
  foldl (λ m kv, <[kv.1 := kv.2]> m) md ws.

(** The value of the last assignment to [k]. *)
Definition last_write (k : string) (ws : list (string * pyval)) : option pyval :=
  snd <$> last (filter (λ kv, kv.1 = k) ws).

(** An item with its hook list emptied. *)
Definition without_hooks (x : FormItem.t) : FormItem.t :=
  FormItem.mk (FormItem.name x) (FormItem.value x) (FormItem.placeholder x)
    (FormItem.html_type x) (FormItem.id x) [].

(** A form in which the controls carry no hooks. *)
Definition drop_control_hooks_item (x : FormItem.t) : FormItem.t :=
  if bool_decide (FormItem.html_type x ∈ CONTROL_TYPES) then without_hooks x
  else x.

Definition drop_control_hooks_group (g : Group.t) : Group.t :=
  Group.mk (Group.name g) (drop_control_hooks_item <$> Group.items g).

Definition drop_control_hooks (f : Form.t) : Form.t :=
  Form.mk (Form.name f) (drop_control_hooks_group <$> Form.groups f)
    (Form.front_matter f) (Form.id f).

(** Two items that differ in their value at most. *)
Definition same_but_value (x x' : FormItem.t) : Prop :=
  x' = FormItem.set_value x (FormItem.value x').

(** C1 as stated, without its clause on controls: the export returns a
    mapping that holds the name of the form under "form_name" and, for every
    item that is not a control, its value after the hooks under its
    lowercased name. *)
Definition exports_every_item (lower : string → string)
    (G : gmap string GlobalObj) (f : Form.t) : Prop :=
  ∃ m,
    (Form._serialize_as_front_matter lower G f).2 = Ok m
    ∧ m !! "form_name" = Some (VStr (Form.name f))
    ∧ ∀ x, x ∈ exported (all_items (Form.groups f)) →
        m !! lower (FormItem.name x) = Some (hooked_value G x).

(** A form with two text fields whose names differ in case only. *)
Definition clash_form : Form.t :=
  Form.mk "Post"
    [ Group.mk "Details"
        [ FormItem.mk "Title" (VStr "Coffee") "" "text" "item-1" [];
          FormItem.mk "TITLE" (VStr "Tea") "" "text" "item-2" [] ] ]
    (Post ∅) "form-1".

(** The hooks of an item applied twice to its value. *)
Definition hooked_twice (G : gmap string GlobalObj) (x : FormItem.t) : pyval :=
  hooked_value G (FormItem.set_value x (hooked_value G x)).

(** C5 as stated: two calls return, leave every item that is not a control
    with its hooks applied twice to the original value, and the second
    mapping records that value under the lowercased name of the item. *)
Definition second_call_records_all (lower : string → string)
    (G : gmap string GlobalObj) (f : Form.t) : Prop :=
  ∃ f1 m1 f2 m2,
    Form._serialize_as_front_matter lower G f = (f1, Ok m1)
    ∧ Form._serialize_as_front_matter lower G f1 = (f2, Ok m2)
    ∧ all_items (Form.groups f2)
      = (λ x, after_hooks G (after_hooks G x)) <$> all_items (Form.groups f)
    ∧ ∀ x, x ∈ exported (all_items (Form.groups f)) →
        m2 !! lower (FormItem.name x) = Some (hooked_twice G x).

(** A form with two hooked text fields whose names differ in case only. *)
Definition slug_clash_form : Form.t :=
  Form.mk "Post"
    [ Group.mk "Meta"
        [ FormItem.mk "Slug" (VStr "FIRST POST") "" "text" "item-1" ["slugify"];
          FormItem.mk "SLUG" (VStr "SECOND POST") "" "text" "item-2" ["slugify"] ] ]
    (Post ∅) "form-1".

(** The form of the example specification at the end of the module, with
    identifiers of its own. *)
Definition example_form : Form.t :=
  Form.mk "Publish a Blog Post"
    [ Group.mk "Post Details"
        [ FormItem.mk "Title" (VStr "Coffee") "" "text" "item-id" [];
          FormItem.mk "Body" (VStr "This is a test!") "" "textarea" "item-id" [] ];
      Group.mk "Meta Information"
        [ FormItem.mk "Slug" (VStr "POST-EXAMPLE") "" "text" "item-id" ["slugify"] ];
      Group.mk "Publish"
        [ FormItem.mk "Publish" (VStr "Publish") "" "submit" "item-id" [] ] ]
    (Post ∅) "form-id".

(** *** Reading a form back against its specification *)

(** The value of a field as the specification would write it. *)
Definition pyobj_of_val (v : pyval) : pyobj :=
  match v with
  | VStr s => OStr s
  | VEmptyDict => ODict []
  end.

(** If the dictionary supplies the key, it supplies this value. *)
Definition supplied (d : list (string * pyobj)) (k : string) (read : pyobj) : Prop :=
  ∀ v, dict_get k d = Some v → v = read.

Definition item_reads_back (o : pyobj) (x : FormItem.t) : Prop :=
  ∃ d,
    o = ODict d
    ∧ dict_get "name" d = Some (OStr (FormItem.name x))
    ∧ supplied d "value" (pyobj_of_val (FormItem.value x))
    ∧ supplied d "placeholder" (OStr (FormItem.placeholder x))
    ∧ supplied d "html_type" (OStr (FormItem.html_type x))
    ∧ supplied d "id" (OStr (FormItem.id x))
    ∧ supplied d "hooks" (OList (OStr <$> FormItem.hooks x)).

Definition group_reads_back (o : pyobj) (g : Group.t) : Prop :=
  ∃ d its,
    o = ODict d
    ∧ dict_get "name" d = Some (OStr (Group.name g))
    ∧ dict_get "items" d = Some (OList its)
    ∧ Forall2 item_reads_back its (Group.items g).

Definition form_reads_back (o : pyobj) (f : Form.t) : Prop :=
  ∃ d gs,
    o = ODict d
    ∧ dict_get "name" d = Some (OStr (Form.name f))
    ∧ dict_get "groups" d = Some (OList gs)
    ∧ Forall2 group_reads_back gs (Form.groups f)
    ∧ supplied d "id" (OStr (Form.id f)).

(** *** Well-formed specifications *)

Definition is_str (o : pyobj) : bool :=
  match o with OStr _ => true | _ => false end.

Definition is_list_of (p : pyobj → bool) (o : pyobj) : bool :=
  match o with OList l => forallb p l | _ => false end.

Definition has (p : pyobj → bool) (k : string) (d : list (string * pyobj)) : bool :=
  match dict_get k d with Some o => p o | None => false end.

Definition may_have (p : pyobj → bool) (k : string) (d : list (string * pyobj)) : bool :=
  match dict_get k d with Some o => p o | None => true end.

Definition item_spec_ok (o : pyobj) : bool :=
  match o with
  | ODict d =>
      has is_str "name" d && may_have is_str "value" d
      && may_have is_str "placeholder" d && may_have is_str "html_type" d
      && may_have is_str "id" d && may_have (is_list_of is_str) "hooks" d
  | _ => false
  end.

Definition group_spec_ok (o : pyobj) : bool :=
  match o with
  | ODict d => has is_str "name" d && has (is_list_of item_spec_ok) "items" d
  | _ => false
  end.

Definition form_spec_ok (o : pyobj) : bool :=
  match o with
  | ODict d =>
      has is_str "name" d && has (is_list_of group_spec_ok) "groups" d
      && may_have is_str "front_matter" d && may_have is_str "id" d
  | _ => false
  end.

(** The specification at the end of the module. *)
Definition spec : pyobj :=
  ODict
    [ ("name", OStr "Publish a Blog Post");
      ("groups", OList
         [ ODict
             [ ("name", OStr "Post Details");
               ("items", OList
                  [ ODict [ ("name", OStr "Title"); ("value", OStr "Coffee");
                            ("html_type", OStr "text") ];
                    ODict [ ("name", OStr "Body");
                            ("value", OStr "This is a test!");
                            ("html_type", OStr "textarea") ] ]) ];
           ODict
             [ ("name", OStr "Meta Information");
               ("items", OList
                  [ ODict [ ("name", OStr "Slug"); ("value", OStr "POST-EXAMPLE");
                            ("html_type", OStr "text");
                            ("hooks", OList [ OStr "slugify" ]) ] ]) ];
           ODict
             [ ("name", OStr "Publish");
               ("items", OList
                  [ ODict [ ("name", OStr "Publish"); ("value", OStr "Publish");
                            ("html_type", OStr "submit") ] ]) ] ]) ].

(** ** Saving a form to a file *)













(** A form whose second field carries a hook that names nothing. *)
Definition broken_hook_form : Form.t :=
  Form.mk "Post"
    [ Group.mk "Meta"
        [ FormItem.mk "Slug" (VStr "FIRST POST") "" "text" "item-1" ["slugify"] ];
      Group.mk "More"
        [ FormItem.mk "Tag" (VStr "A B") "" "text" "item-2"
            ["slugify"; "no_such_hook"];
          FormItem.mk "Note" (VStr "C D") "" "text" "item-3" ["slugify"] ] ]
    (Post ∅) "form-1".
(** * Properties *)

Section python.

(** [str.lower], and the names the interpreter binds in the module. *)
Variable lower : string → string.
Variable ambient : list string.

(** ** slugify *)

Lemma str_map_length f s : String.length (str_map f s) = String.length s.
Proof. induction s; simpl; congruence. Qed.

Lemma str_map_compose f g s : str_map f (str_map g s) = str_map (λ c, f (g c)) s.
Proof. induction s as [|c s IH]; [done|]. cbn. by rewrite IH. Qed.

Lemma str_map_ext f g s : (∀ c, f c = g c) → str_map f s = str_map g s.
Proof. intros Hfg. induction s as [|c s IH]; [done|]. cbn. by rewrite Hfg, IH. Qed.

Lemma ascii_lower_not_upper c : is_upper (ascii_lower c) = false.
Proof.
  destruct c as [[] [] [] [] [] [] [] []]; vm_compute; reflexivity.
Qed.

Lemma ascii_lower_idempotent c : ascii_lower (ascii_lower c) = ascii_lower c.
Proof.
  destruct c as [[] [] [] [] [] [] [] []]; vm_compute; reflexivity.
Qed.

Lemma ascii_lower_space c : ascii_lower c = " "%char → c = " "%char.
Proof.
  destruct c as [[] [] [] [] [] [] [] []]; vm_compute; congruence.
Qed.

Lemma slug_char_clean c :
  slug_char c ≠ " "%char ∧ is_upper (slug_char c) = false.
Proof.
  unfold slug_char. destruct (decide (c = " "%char)) as [->|Hc].
  - split; [discriminate | reflexivity].
  - split; [|apply ascii_lower_not_upper].
    intros E. by apply Hc, ascii_lower_space.
Qed.

Lemma str_map_no_char f c s :
  (∀ a, f a ≠ c) → str_in c (str_map f s) = false.
Proof.
  intros Hf. induction s as [|a s IH]; [done|].
  cbn [str_map str_in]. rewrite IH, orb_false_r.
  apply bool_decide_eq_false. intros E. by apply (Hf a).
Qed.

Lemma str_map_forall f p s :
  (∀ a, p (f a) = true) → str_forall p (str_map f s) = true.
Proof.
  intros Hf. induction s as [|a s IH]; [done|].
  cbn [str_map str_forall]. by rewrite Hf, IH.
Qed.

(** [value.replace(" ", "-")] works character by character. *)
Lemma replace_hyphenate s : str_replace " "%char "-" s = str_map hyphenate s.
Proof.
  induction s as [|c s IH]; [done|]. cbn [str_replace str_map].
  unfold hyphenate at 1. destruct (decide (c = " "%char)); by rewrite IH.
Qed.

Lemma hyphenate_no_space c : hyphenate c ≠ " "%char.
Proof. unfold hyphenate. by case_decide. Qed.

Lemma replace_no_space s : str_in " "%char (str_replace " "%char "-" s) = false.
Proof. rewrite replace_hyphenate. apply str_map_no_char, hyphenate_no_space. Qed.

Lemma replace_without_space s :
  str_in " "%char s = false → str_replace " "%char "-" s = s.
Proof.
  induction s as [|c s IH]; [done|]. cbn [str_in str_replace].
  intros [Hc Hs]%orb_false_elim. apply bool_decide_eq_false in Hc.
  rewrite decide_False by (intros ->; by apply Hc). by rewrite IH.
Qed.

Lemma lower_ascii_map s : lower_ascii s = str_map ascii_lower s.
Proof. induction s as [|c s IH]; [done|]. cbn. by rewrite IH. Qed.

Lemma lower_ascii_agrees : agrees_on_ascii lower_ascii.
Proof. by intros s _. Qed.

Lemma lower_ascii_idempotent s : lower_ascii (lower_ascii s) = lower_ascii s.
Proof.
  induction s as [|c s IH]; [done|]. cbn.
  by rewrite ascii_lower_idempotent, IH.
Qed.

Lemma lower_ascii_no_space s :
  str_in " "%char s = false → str_in " "%char (lower_ascii s) = false.
Proof.
  induction s as [|c s IH]; [done|]. cbn [str_in lower_ascii].
  intros [Hc Hs]%orb_false_elim. rewrite IH, orb_false_r by done.
  apply bool_decide_eq_false in Hc. apply bool_decide_eq_false.
  intros E. apply Hc. symmetry. by apply ascii_lower_space.
Qed.

Lemma is_ascii_hyphenate s :
  is_ascii s = true → is_ascii (str_map hyphenate s) = true.
Proof.
  unfold is_ascii. induction s as [|c s IH]; [done|].
  cbn [str_map str_forall]. intros [Hc Hs]%andb_prop.
  rewrite IH, andb_true_r by done. unfold hyphenate. by case_decide.
Qed.

Lemma slug_char_hyphenate c : ascii_lower (hyphenate c) = slug_char c.
Proof. unfold hyphenate, slug_char. by case_decide. Qed.

(** On every string: the spaces become hyphens, then the text is
    lowercased. *)
Lemma slugify_hyphenate s : slugify lower s = lower (str_map hyphenate s).
Proof. unfold slugify. by rewrite replace_hyphenate. Qed.

(** On ASCII text the slug is read off the input character by character. *)
Lemma slugify_ascii s :
  agrees_on_ascii lower → is_ascii s = true →
  slugify lower s = str_map slug_char s.
Proof.
  intros Hl Hs. rewrite slugify_hyphenate, Hl by by apply is_ascii_hyphenate.
  rewrite lower_ascii_map, str_map_compose.
  apply str_map_ext, slug_char_hyphenate.
Qed.

(** C9: slugify replaces every space by a hyphen and lowercases the result;
    on "POST EXAMPLE" it yields "post-example".  For every string the slug
    is the lowercase of the string in which each space has become a hyphen
    and nothing else has changed, a string of the same length without a
    space.  For a string of ASCII characters the slug has the length of the
    input, its character at each position is the lowercased input character
    (a hyphen for a space), and it holds no space and no upper-case
    letter. *)
Theorem slugify_post_example :
  agrees_on_ascii lower →
  slugify lower "POST EXAMPLE" = "post-example"
  ∧ (∀ s : string,
       slugify lower s = lower (str_map hyphenate s)
       ∧ String.length (str_map hyphenate s) = String.length s
       ∧ str_in " "%char (str_map hyphenate s) = false)
  ∧ (∀ s : string,
       is_ascii s = true →
       slugify lower s = str_map slug_char s
       ∧ String.length (slugify lower s) = String.length s
       ∧ str_in " "%char (slugify lower s) = false
       ∧ str_forall (λ c, negb (is_upper c)) (slugify lower s) = true).
Proof.
  intros Hl. split; [|split].
  - by rewrite (slugify_ascii "POST EXAMPLE" Hl eq_refl).
  - intros s. split; [apply slugify_hyphenate|].
    split; [apply str_map_length|].
    apply str_map_no_char, hyphenate_no_space.
  - intros s Hs. rewrite (slugify_ascii s Hl Hs).
    split; [done|]. split; [apply str_map_length|]. split.
    + apply str_map_no_char. intros a. apply slug_char_clean.
    + apply str_map_forall. intros a.
      by destruct (slug_char_clean a) as [_ ->].
Qed.

(** ** Rendering one item *)

Lemma RENDER_FUNCTIONS_dom : dom RENDER_FUNCTIONS = HTML_TYPE.
Proof.
  unfold RENDER_FUNCTIONS, HTML_TYPE. cbn [list_to_map foldr fst snd curry].
  rewrite !dom_insert_L, dom_empty_L. set_solver.
Qed.

Lemma supported_is_Some ty :
  ty ∈ HTML_TYPE ↔ is_Some (RENDER_FUNCTIONS !! ty).
Proof. by rewrite <- RENDER_FUNCTIONS_dom, elem_of_dom. Qed.

Lemma unsupported_None ty :
  ty ∉ HTML_TYPE ↔ RENDER_FUNCTIONS !! ty = None.
Proof. by rewrite <- RENDER_FUNCTIONS_dom, not_elem_of_dom. Qed.

Lemma serialize_item_supported x :
  FormItem.html_type x ∈ HTML_TYPE →
  ∃ control,
    RENDER_FUNCTIONS !! FormItem.html_type x = Some control
    ∧ FormItem._serialize_as_html x
      = Ok (format (FormItem.get x) FormItem.label
              +:+ format (FormItem.get x) control).
Proof.
  intros [control Hc]%supported_is_Some. exists control. split; [done|].
  unfold FormItem._serialize_as_html. by rewrite Hc.
Qed.

Lemma serialize_item_unsupported x :
  FormItem.html_type x ∉ HTML_TYPE →
  FormItem._serialize_as_html x = Raise (KeyError (FormItem.html_type x)).
Proof.
  intros Hc%unsupported_None. unfold FormItem._serialize_as_html. by rewrite Hc.
Qed.

(** C7: rendering an item raises [KeyError] (with the type as its key)
    exactly when [html_type] is outside the supported set, and returns a
    string in every other case, so no other failure exists. *)
Theorem serialize_item_key_error (x : FormItem.t) :
  (FormItem.html_type x ∉ HTML_TYPE
   ↔ FormItem._serialize_as_html x = Raise (KeyError (FormItem.html_type x)))
  ∧ raises_lookup_error (FormItem._serialize_as_html x)
    = negb (bool_decide (FormItem.html_type x ∈ HTML_TYPE))
  ∧ returns (FormItem._serialize_as_html x)
    = bool_decide (FormItem.html_type x ∈ HTML_TYPE).
Proof.
  destruct (decide (FormItem.html_type x ∈ HTML_TYPE)) as [Hin|Hout].
  - destruct (serialize_item_supported x Hin) as (control & _ & ->).
    rewrite bool_decide_eq_true_2 by done. by repeat split.
  - rewrite serialize_item_unsupported by done.
    rewrite bool_decide_eq_false_2 by done. by repeat split.
Qed.

(** *** Occurrences of the fields in the rendering *)

Lemma app_cons c s1 s2 : String c s1 +:+ s2 = String c (s1 +:+ s2).
Proof. reflexivity. Qed.

Lemma app_empty_l s : EmptyString +:+ s = s.
Proof. reflexivity. Qed.

Lemma length_app s1 s2 :
  String.length (s1 +:+ s2) = String.length s1 + String.length s2.
Proof.
  induction s1 as [|c s1 IH]; [done|].
  rewrite app_cons. cbn [String.length]. lia.
Qed.

Lemma format_app get tpl1 tpl2 :
  format get (tpl1 ++ tpl2) = format get tpl1 +:+ format get tpl2.
Proof.
  induction tpl1 as [|p tpl1 IH]; [done|].
  cbn [app format]. rewrite IH.
  generalize (piece_text get p) as s. intros s.
  induction s as [|c s IHs]; [done|]. rewrite !app_cons. by f_equal.
Qed.





Lemma slots_cons f p tpl :
  slots f (p :: tpl) = (if decide (p = Fld f) then 1 else 0) + slots f tpl.
Proof.
  unfold slots. rewrite filter_cons. by destruct (decide (p = Fld f)).
Qed.


Lemma item_template_slots ty tpl :
  item_template ty = Some tpl →
  slots f_id tpl = 2 ∧ slots f_name tpl = 2
  ∧ slots f_value tpl = 1
  ∧ slots f_placeholder tpl = (if decide (ty = "submit") then 0 else 1).
Proof.
  unfold item_template. intros Htpl.
  destruct (RENDER_FUNCTIONS !! ty) as [control|] eqn:Hc; [|done].
  injection Htpl as <-.
  assert (ty ∈ HTML_TYPE) as Hty by (apply supported_is_Some; eauto).
  unfold HTML_TYPE in Hty.
  rewrite !elem_of_union, !elem_of_singleton in Hty.
  destruct Hty as [[[[-> | ->] | ->] | ->] | ->];
    vm_compute in Hc; injection Hc as <-; vm_compute; done.
Qed.






(** ** Rendering a form *)

Lemma app_assoc_str s1 s2 s3 : (s1 +:+ s2) +:+ s3 = s1 +:+ (s2 +:+ s3).
Proof.
  induction s1 as [|c s1 IH]; [done|]. rewrite !app_cons. by f_equal.
Qed.

Lemma app_empty_r s : s +:+ EmptyString = s.
Proof. induction s as [|c s IH]; [done|]. rewrite app_cons. by f_equal. Qed.

Lemma str_concat_app l1 l2 :
  str_concat (l1 ++ l2) = str_concat l1 +:+ str_concat l2.
Proof.
  induction l1 as [|s l1 IH]; [done|].
  cbn [app str_concat foldr]. fold (str_concat (l1 ++ l2)). fold (str_concat l1).
  by rewrite IH, app_assoc_str.
Qed.

Lemma first_unsupported_cons x items :
  first_unsupported (x :: items)
  = if decide (FormItem.html_type x ∈ HTML_TYPE)
    then first_unsupported items else Some (FormItem.html_type x).
Proof.
  unfold first_unsupported. rewrite fmap_cons, filter_cons.
  destruct (decide (FormItem.html_type x ∉ HTML_TYPE)) as [Hn|Hy].
  - by rewrite decide_False.
  - rewrite decide_True; [done|]. by apply dec_stable.
Qed.

Lemma first_unsupported_app items1 items2 :
  first_unsupported (items1 ++ items2)
  = match first_unsupported items1 with
    | Some ty => Some ty
    | None => first_unsupported items2
    end.
Proof.
  induction items1 as [|x items1 IH]; [done|].
  rewrite <- app_comm_cons, !first_unsupported_cons. by case_decide.
Qed.

Lemma item_html_supported x :
  FormItem.html_type x ∈ HTML_TYPE →
  FormItem._serialize_as_html x = Ok (item_html x).
Proof.
  intros Hty. unfold item_html.
  by destruct (serialize_item_supported x Hty) as (control & _ & ->).
Qed.

(** The inner loop appends the fragments in item order, or stops at the
    first item without renderer. *)
Lemma html_items_spec items html :
  Form.html_items items html
  = match first_unsupported items with
    | None => Ok (html +:+ str_concat (item_html <$> items))
    | Some ty => Raise (KeyError ty)
    end.
Proof.
  revert html. induction items as [|x items IH]; intros html.
  - cbn. by rewrite app_empty_r.
  - rewrite first_unsupported_cons. cbn [Form.html_items].
    destruct (decide (FormItem.html_type x ∈ HTML_TYPE)) as [Hy|Hn].
    + rewrite (item_html_supported x Hy). cbn [mbind result_bind].
      rewrite IH. destruct (first_unsupported items); [done|].
      rewrite fmap_cons. cbn [str_concat foldr].
      fold (str_concat (item_html <$> items)). by rewrite app_assoc_str.
    + by rewrite (serialize_item_unsupported x Hn).
Qed.

Lemma html_groups_spec groups html :
  Form.html_groups groups html
  = match first_unsupported (all_items groups) with
    | None => Ok (html +:+ str_concat (group_wrapper <$> groups))
    | Some ty => Raise (KeyError ty)
    end.
Proof.
  revert html. induction groups as [|g groups IH]; intros html.
  - cbn. by rewrite app_empty_r.
  - unfold all_items. rewrite fmap_cons. cbn [concat].
    fold (all_items groups). rewrite first_unsupported_app.
    cbn [Form.html_groups]. rewrite html_items_spec.
    destruct (first_unsupported (Group.items g)); [done|].
    cbn [mbind result_bind]. rewrite IH.
    destruct (first_unsupported (all_items groups)); [done|].
    rewrite fmap_cons. cbn [str_concat foldr].
    fold (str_concat (group_wrapper <$> groups)). unfold group_wrapper.
    by rewrite !app_assoc_str.
Qed.

Lemma first_unsupported_None items :
  first_unsupported items = None →
  ∀ x, x ∈ items → FormItem._serialize_as_html x = Ok (item_html x).
Proof.
  induction items as [|y items IH]; intros Hnone x Hx.
  - by apply elem_of_nil in Hx.
  - rewrite first_unsupported_cons in Hnone.
    destruct (decide (FormItem.html_type y ∈ HTML_TYPE)) as [Hy|]; [|done].
    apply elem_of_cons in Hx as [->|Hx]; [by apply item_html_supported|].
    by apply IH.
Qed.

(** C2, as the code has it: when every item of the form has a supported
    type the form renders to the heading with its name, then the form
    element with action [/<id>] and method POST around one wrapper per
    group, in group order, each wrapper named after its group and holding
    the fragments of its items in item order; so a form of N groups renders
    N wrappers.  When some item has no renderer the call raises [KeyError]
    with the type of the first such item. *)
Theorem serialize_form_structure (f : Form.t) :
  Form._serialize_as_html f
  = match first_unsupported (all_items (Form.groups f)) with
    | None => Ok (form_html f)
    | Some ty => Raise (KeyError ty)
    end
  ∧ length (group_wrapper <$> Form.groups f) = length (Form.groups f)
  ∧ (∀ i g, Form.groups f !! i = Some g →
       (group_wrapper <$> Form.groups f) !! i
       = Some ("<div class='group' id='" +:+ Group.name g +:+ "'>"
                 +:+ str_concat (item_html <$> Group.items g) +:+ "</div>"))
  ∧ (first_unsupported (all_items (Form.groups f)) = None →
     ∀ x, x ∈ all_items (Form.groups f) →
       FormItem._serialize_as_html x = Ok (item_html x)).
Proof.
  split; [|split; [|split]].
  - unfold Form._serialize_as_html. rewrite html_groups_spec.
    destruct (first_unsupported _); [done|].
    cbn [mbind result_bind]. unfold form_html. by rewrite !app_assoc_str.
  - apply length_fmap.
  - intros i g Hg. by rewrite list_lookup_fmap, Hg.
  - apply first_unsupported_None.
Qed.

(** C2, as stated, fails on a form with a field of type "date": rendering
    it raises [KeyError] instead of producing a string. *)
Lemma serialize_form_unsupported_item : ¬ renders_wrappers date_form.
Proof. intros (html & Hs & _). vm_compute in Hs. discriminate. Qed.

(** ** Running hooks *)

Lemma apply_hooks_cons G hook hs v :
  apply_hooks G (hook :: hs) v
  = match G !! hook with
    | None => None
    | Some o =>
        match py_call o v with
        | Ok v' => apply_hooks G hs v'
        | Raise _ => None
        end
    end.
Proof.
  unfold apply_hooks. cbn [foldl]. unfold apply_hook at 2. cbn.
  assert (∀ l, foldl (apply_hook G) None l = None) as Hnone.
  { induction l as [|h l IH]; [done|]. by cbn. }
  destruct (G !! hook) as [o|]; cbn; [|apply Hnone].
  destruct (py_call o v); [done|apply Hnone].
Qed.

Lemma apply_hooks_app G hs1 hs2 v :
  apply_hooks G (hs1 ++ hs2) v = apply_hooks G hs1 v ≫= apply_hooks G hs2.
Proof.
  revert v. induction hs1 as [|h hs1 IH]; intros v; [done|].
  rewrite <- app_comm_cons, !apply_hooks_cons.
  destruct (G !! h) as [o|]; [|done]. destruct (py_call o v); [apply IH|done].
Qed.

(** The loop returns exactly when the fold is defined, with its value. *)
Lemma run_hooks_from_ok G hs v v' :
  FormItem.run_hooks_from G hs v = (v', Ok ()) ↔ apply_hooks G hs v = Some v'.
Proof.
  revert v. induction hs as [|h hs IH]; intros v.
  - cbn. split; intros [= ->]; done.
  - rewrite apply_hooks_cons. cbn [FormItem.run_hooks_from].
    destruct (G !! h) as [o|]; [|split; intros [=]].
    destruct (py_call o v) as [w|e]; [apply IH|split; intros [=]].
Qed.

(** The loop raises exactly at the first hook that is unbound or whose call
    raises; the value is the one the hooks before it produced. *)
Lemma run_hooks_from_raise G hs v w e :
  FormItem.run_hooks_from G hs v = (w, Raise e)
  ↔ ∃ pre hook post,
      hs = pre ++ hook :: post
      ∧ apply_hooks G pre v = Some w
      ∧ match G !! hook with
        | None => e = KeyError hook
        | Some o => py_call o w = Raise e
        end.
Proof.
  revert v. induction hs as [|h hs IH]; intros v.
  - cbn. split; [intros [=]|]. intros (pre & hook & post & E & _).
    by destruct pre.
  - cbn [FormItem.run_hooks_from]. split.
    + destruct (G !! h) as [o|] eqn:Ho.
      * destruct (py_call o v) as [v'|e'] eqn:Hcall.
        -- intros (pre & hook & post & -> & Hpre & Hat)%IH.
           exists (h :: pre), hook, post. split; [done|].
           rewrite apply_hooks_cons, Ho, Hcall. done.
        -- intros [= <- <-]. exists [], h, hs. by rewrite Ho.
      * intros [= <- <-]. exists [], h, hs. by rewrite Ho.
    + intros (pre & hook & post & E & Hpre & Hat).
      destruct pre as [|h' pre].
      * cbn in E. injection E as -> ->. cbn in Hpre. injection Hpre as ->.
        destruct (G !! hook) as [o|]; [by rewrite Hat|by subst].
      * rewrite <- app_comm_cons in E. injection E as -> ->.
        rewrite apply_hooks_cons in Hpre.
        destruct (G !! h') as [o|]; [|done].
        destruct (py_call o v) as [v'|]; [|done].
        apply IH. by exists pre, hook, post.
Qed.

Lemma run_hooks_item G x :
  FormItem._run_hooks G x
  = (FormItem.set_value x (FormItem.run_hooks_from G (FormItem.hooks x) (FormItem.value x)).1,
     (FormItem.run_hooks_from G (FormItem.hooks x) (FormItem.value x)).2).
Proof. unfold FormItem._run_hooks. by destruct (FormItem.run_hooks_from _ _ _). Qed.

(** *** The namespace of the module *)

(** A name of the file is bound to what the file binds it to, whatever the
    interpreter binds besides. *)
Lemma module_globals_source hook o :
  (list_to_map (source_globals lower) : gmap string GlobalObj) !! hook = Some o →
  module_globals lower ambient !! hook = Some o.
Proof.
  intros Ho. unfold module_globals. rewrite list_to_map_app.
  by apply lookup_union_Some_l.
Qed.

Lemma module_globals_unbound hook :
  (list_to_map (source_globals lower) : gmap string GlobalObj) !! hook = None →
  hook ∉ ambient →
  module_globals lower ambient !! hook = None.
Proof.
  intros Hs Ha. unfold module_globals. rewrite list_to_map_app.
  apply lookup_union_None. split; [done|].
  apply not_elem_of_list_to_map_1.
  intros ([k o] & -> & (k' & [= -> _] & Hk)%list_elem_of_fmap)%list_elem_of_fmap.
  by apply Ha.
Qed.

Lemma module_globals_bound hook o :
  module_globals lower ambient !! hook = Some o →
  (hook, o) ∈ source_globals lower ∨ o = GNotCallable.
Proof.
  intros [Ho|Ho]%elem_of_list_to_map_2%elem_of_app; [by left|right].
  by apply list_elem_of_fmap in Ho as (k & [= _ ->] & _).
Qed.

Lemma module_globals_slugify :
  module_globals lower ambient !! "slugify" = Some (slugify_global lower).
Proof. apply module_globals_source. vm_compute. reflexivity. Qed.

(** In the namespace of the module no call raises a lookup error: what is
    bound is not callable, rejects the call, or is [slugify]. *)
Lemma module_globals_call hook o v e :
  module_globals lower ambient !! hook = Some o → py_call o v = Raise e →
  is_lookup_error e = false.
Proof.
  intros [Ho| ->]%module_globals_bound Hcall; [|by injection Hcall as <-].
  unfold source_globals in Ho.
  repeat (apply elem_of_cons in Ho as [[= -> ->]|Ho];
          [destruct v as [[|??]|]; cbn in Hcall;
           first [discriminate | by injection Hcall as <-]|]).
  by apply elem_of_nil in Ho.
Qed.

(** C8, as the code has it: the hooks are applied in sequence, each to the
    value the one before returned, and only the value of the item changes.
    The run returns exactly when every name is bound and every call
    returns; it raises at the first hook that is unbound ([KeyError] with
    that name) or whose call raises (the error of the call), leaving the
    value the hooks before it produced.  In the namespace of the module,
    whatever names the interpreter binds there besides those of the file, a
    lookup error is raised exactly when the hook at which the run stops is
    unbound: some name is unbound and the hooks before it all returned. *)
Theorem run_hooks_sequence (G : gmap string GlobalObj) (x : FormItem.t) :
  (∃ w, (FormItem._run_hooks G x).1 = FormItem.set_value x w)
  ∧ (∀ v', FormItem._run_hooks G x = (FormItem.set_value x v', Ok ())
           ↔ apply_hooks G (FormItem.hooks x) (FormItem.value x) = Some v')
  ∧ (∀ w e, FormItem._run_hooks G x = (FormItem.set_value x w, Raise e)
            ↔ ∃ pre hook post,
                FormItem.hooks x = pre ++ hook :: post
                ∧ apply_hooks G pre (FormItem.value x) = Some w
                ∧ match G !! hook with
                  | None => e = KeyError hook
                  | Some o => py_call o w = Raise e
                  end)
  ∧ (raises_lookup_error
       (FormItem._run_hooks (module_globals lower ambient) x).2 = true
     ↔ ∃ pre hook post,
         FormItem.hooks x = pre ++ hook :: post
         ∧ is_Some (apply_hooks (module_globals lower ambient) pre
                      (FormItem.value x))
         ∧ module_globals lower ambient !! hook = None).
Proof.
  split; [|split; [|split]].
  - rewrite run_hooks_item. eauto.
  - intros v'. rewrite run_hooks_item, <- run_hooks_from_ok.
    destruct (FormItem.run_hooks_from G _ _) as [w r]. cbn. split.
    + by intros [= -> ->].
    + by intros [= -> ->].
  - intros w e. rewrite run_hooks_item, <- run_hooks_from_raise.
    destruct (FormItem.run_hooks_from G _ _) as [w' r]. cbn. split.
    + by intros [= -> ->].
    + by intros [= -> ->].
  - generalize module_globals_call.
    generalize (module_globals lower ambient) as M. intros M Hcalls.
    rewrite run_hooks_item. cbn [snd].
    destruct (FormItem.run_hooks_from M _ _) as [w r] eqn:Hrun.
    cbn [snd]. split.
    + destruct r as [[]|e]; [done|]. cbn. intros He.
      apply run_hooks_from_raise in Hrun as (pre & hook & post & E & Hpre & Hat).
      exists pre, hook, post. split; [done|]. split; [by exists w|].
      destruct (M !! hook) as [o|] eqn:Ho; [|done].
      by rewrite (Hcalls _ _ _ _ Ho Hat) in He.
    + intros (pre & hook & post & E & [w' Hpre] & Hhook).
      assert (FormItem.run_hooks_from M (FormItem.hooks x)
                (FormItem.value x) = (w', Raise (KeyError hook))) as Hrun'.
      { apply run_hooks_from_raise. exists pre, hook, post. by rewrite Hhook. }
      rewrite Hrun' in Hrun. by injection Hrun as <- <-.
Qed.

(** ** The front-matter export *)

Lemma control_iff x :
  FormItem.html_type x ∈ CONTROL_TYPES ↔ FormItem.html_type x = "submit".
Proof. unfold CONTROL_TYPES. apply elem_of_singleton. Qed.

Lemma exported_cons x items :
  exported (x :: items)
  = if bool_decide (FormItem.html_type x ∈ CONTROL_TYPES)
    then exported items else x :: exported items.
Proof.
  unfold exported. rewrite filter_cons. case_bool_decide.
  - by rewrite decide_False by (intros Hn; by apply Hn).
  - by rewrite decide_True.
Qed.

Lemma exported_app items1 items2 :
  exported (items1 ++ items2) = exported items1 ++ exported items2.
Proof. apply filter_app. Qed.

Lemma first_hook_error_app G items1 items2 :
  first_hook_error G (items1 ++ items2)
  = match first_hook_error G items1 with
    | Some e => Some e
    | None => first_hook_error G items2
    end.
Proof.
  unfold first_hook_error. rewrite exported_app, omap_app.
  by destruct (omap (hook_error G) (exported items1)).
Qed.

Lemma writes_app G items1 items2 :
  writes lower G (items1 ++ items2) = writes lower G items1 ++ writes lower G items2.
Proof. unfold writes. by rewrite exported_app, fmap_app. Qed.

Lemma write_all_app ws1 ws2 md :
  write_all (ws1 ++ ws2) md = write_all ws2 (write_all ws1 md).
Proof. apply foldl_app. Qed.

Lemma run_hooks_outcome G x :
  FormItem._run_hooks G x
  = (FormItem.set_value x (hooked_value G x),
     match hook_error G x with None => Ok () | Some e => Raise e end).
Proof.
  unfold hooked_value, hook_error. rewrite run_hooks_item. cbn.
  by destruct (FormItem.run_hooks_from G _ _) as [w [[]|e]].
Qed.

(** The loop over the items of a group: every hook returns. *)
Lemma front_matter_items_ok G items md :
  first_hook_error G items = None →
  Form.front_matter_items lower G items md
  = (after_hooks G <$> items, write_all (writes lower G items) md, Ok ()).
Proof.
  revert md. induction items as [|x items IH]; intros md Hnone; [done|].
  unfold first_hook_error, writes in *. rewrite exported_cons in *.
  cbn [Form.front_matter_items]. rewrite fmap_cons. unfold after_hooks at 1.
  case_bool_decide as Hc.
  - by rewrite IH.
  - rewrite run_hooks_outcome. cbn [omap list_omap] in Hnone.
    destruct (hook_error G x) as [e|]; [done|].
    rewrite IH by done. by rewrite fmap_cons.
Qed.

(** The loop over the items of a group: whether it raises, and what. *)
Lemma front_matter_items_result G items md :
  (Form.front_matter_items lower G items md).2
  = match first_hook_error G items with
    | None => Ok ()
    | Some e => Raise e
    end.
Proof.
  revert md. induction items as [|x items IH]; intros md; [done|].
  unfold first_hook_error in *. rewrite exported_cons.
  cbn [Form.front_matter_items]. case_bool_decide as Hc.
  - specialize (IH md).
    by destruct (Form.front_matter_items lower G items md) as [[??]?].
  - rewrite run_hooks_outcome. cbn [omap list_omap].
    destruct (hook_error G x) as [e|]; [done|].
    specialize (IH (<[lower (FormItem.name (FormItem.set_value x (hooked_value G x)))
                     := FormItem.value (FormItem.set_value x (hooked_value G x))]> md)).
    by destruct (Form.front_matter_items lower G items _) as [[??]?].
Qed.

Lemma all_items_cons g groups :
  all_items (g :: groups) = Group.items g ++ all_items groups.
Proof. done. Qed.

Lemma front_matter_groups_ok G groups md :
  first_hook_error G (all_items groups) = None →
  Form.front_matter_groups lower G groups md
  = (group_after_hooks G <$> groups,
     write_all (writes lower G (all_items groups)) md, Ok ()).
Proof.
  revert md. induction groups as [|g groups IH]; intros md Hnone; [done|].
  rewrite all_items_cons, first_hook_error_app in Hnone.
  destruct (first_hook_error G (Group.items g)) eqn:Hg; [done|].
  cbn [Form.front_matter_groups].
  rewrite (front_matter_items_ok _ _ _ Hg), IH by done.
  by rewrite all_items_cons, writes_app, write_all_app.
Qed.

Lemma front_matter_groups_result G groups md :
  (Form.front_matter_groups lower G groups md).2
  = match first_hook_error G (all_items groups) with
    | None => Ok ()
    | Some e => Raise e
    end.
Proof.
  revert md. induction groups as [|g groups IH]; intros md; [done|].
  rewrite all_items_cons, first_hook_error_app.
  cbn [Form.front_matter_groups].
  pose proof (front_matter_items_result G (Group.items g) md) as Hi.
  destruct (Form.front_matter_items lower G (Group.items g) md) as [[items' md'] r].
  cbn [snd] in Hi. rewrite Hi.
  destruct (first_hook_error G (Group.items g)); [done|].
  specialize (IH md').
  by destruct (Form.front_matter_groups lower G groups md') as [[??]?].
Qed.

(** The whole call: its outcome ... *)
Lemma serialize_front_matter_result G n gs fm i :
  (Form._serialize_as_front_matter lower G (Form.mk n gs fm i)).2
  = match fm with
    | FrontMatterStr _ => Raise TypeError
    | Post md =>
        match first_hook_error G (all_items gs) with
        | Some e => Raise e
        | None =>
            Ok (write_all (writes lower G (all_items gs)) (<["form_name" := VStr n]> md))
        end
    end.
Proof.
  unfold Form._serialize_as_front_matter. cbn [Form.front_matter Form.groups Form.name].
  destruct fm as [md|s]; [|done].
  destruct (first_hook_error G (all_items gs)) as [e|] eqn:Herr.
  - pose proof (front_matter_groups_result G gs (<["form_name" := VStr n]> md)) as Hr.
    rewrite Herr in Hr.
    destruct (Form.front_matter_groups lower G gs _) as [[gs' md'] r].
    cbn [snd] in *. by rewrite Hr.
  - by rewrite (front_matter_groups_ok _ _ _ Herr).
Qed.

(** ... and the form it leaves when it returns. *)
Lemma serialize_front_matter_state G n gs md i :
  first_hook_error G (all_items gs) = None →
  (Form._serialize_as_front_matter lower G (Form.mk n gs (Post md) i)).1
  = Form.mk n (group_after_hooks G <$> gs)
      (Post (write_all (writes lower G (all_items gs)) (<["form_name" := VStr n]> md))) i.
Proof.
  intros Herr. unfold Form._serialize_as_front_matter.
  cbn [Form.front_matter Form.groups Form.name Form.id].
  by rewrite (front_matter_groups_ok _ _ _ Herr).
Qed.

(** *** What the returned mapping holds *)

Lemma last_write_cons k k' v ws :
  last_write k ((k', v) :: ws)
  = match last_write k ws with
    | Some v' => Some v'
    | None => if decide (k' = k) then Some v else None
    end.
Proof.
  unfold last_write. rewrite filter_cons. cbn [fst].
  destruct (decide (k' = k)) as [->|Hne];
    [|by destruct (last (filter (λ kv, kv.1 = k) ws))].
  destruct (filter (λ kv, kv.1 = k) ws) as [|kv l] eqn:Hf; [done|].
  rewrite last_cons_cons.
  destruct (last (kv :: l)) eqn:Hl; [done|]. by apply last_None in Hl.
Qed.

(** A key holds the value of the last assignment to it, or what the mapping
    held before. *)
Lemma write_all_lookup ws md k :
  write_all ws md !! k
  = match last_write k ws with
    | Some v => Some v
    | None => md !! k
    end.
Proof.
  revert md. induction ws as [|[k' v] ws IH]; intros md; [done|].
  unfold write_all in *. cbn [foldl fst snd]. rewrite IH, last_write_cons.
  destruct (last_write k ws); [done|].
  destruct (decide (k' = k)) as [->|Hne].
  - apply lookup_insert_eq.
  - by apply lookup_insert_ne.
Qed.

Lemma last_write_None k ws :
  (∀ kv, kv ∈ ws → kv.1 ≠ k) → last_write k ws = None.
Proof.
  induction ws as [|[k' v] ws IH]; intros Hk; [done|].
  rewrite last_write_cons, IH.
  - rewrite decide_False; [done|]. apply (Hk (k', v)). by left.
  - intros kv Hkv. apply Hk. by right.
Qed.

Lemma last_write_app k ws1 ws2 :
  last_write k (ws1 ++ ws2)
  = match last_write k ws2 with
    | Some v => Some v
    | None => last_write k ws1
    end.
Proof.
  induction ws1 as [|[k' v] ws1 IH];
    [rewrite app_nil_l; by destruct (last_write k ws2)|].
  rewrite <- app_comm_cons, !last_write_cons, IH.
  by destruct (last_write k ws2).
Qed.

(** The last assignment of an item that no later recorded item shadows. *)
Lemma last_write_item G k pre x post :
  lower (FormItem.name x) = k →
  (∀ y, y ∈ post → lower (FormItem.name y) ≠ k) →
  last_write k ((λ x, (lower (FormItem.name x), hooked_value G x))
                  <$> (pre ++ x :: post))
  = Some (hooked_value G x).
Proof.
  intros Hk Hpost. rewrite fmap_app, fmap_cons, last_write_app, last_write_cons.
  rewrite last_write_None.
  - by rewrite decide_True.
  - intros kv (y & -> & Hy)%list_elem_of_fmap. cbn. by apply Hpost.
Qed.

Lemma writes_keys G items kv :
  kv ∈ writes lower G items →
  ∃ x, x ∈ items ∧ (FormItem.html_type x ∉ CONTROL_TYPES)
       ∧ kv.1 = lower (FormItem.name x).
Proof.
  unfold writes, exported.
  intros (x & -> & Hx)%list_elem_of_fmap.
  apply list_elem_of_filter in Hx as [Hx Hin]. eauto.
Qed.

(** C1, as the code has it.  On a form whose front matter is a string the
    call raises [TypeError]; on a form whose front matter is a post it
    raises the error of the first item, not a control, whose hooks raise,
    and returns otherwise.  The mapping it returns is the stored metadata
    after the assignment of "form_name" and then, in group and item order,
    of the value after the hooks to the lowercased name of each item that
    is not a control.  So a key holds the value of the last item assigned
    to it; "form_name" holds the name of the form unless an item is named
    so; the key of an item holds its value unless a later item has the same
    lowercased name; and every other key, the name of a control included,
    holds what the stored metadata held. *)
Theorem serialize_front_matter_mapping (G : gmap string GlobalObj)
    (n : string) (gs : list Group.t) (fm : FrontMatter) (i : string) :
  (Form._serialize_as_front_matter lower G (Form.mk n gs fm i)).2
  = match fm with
    | FrontMatterStr _ => Raise TypeError
    | Post md =>
        match first_hook_error G (all_items gs) with
        | Some e => Raise e
        | None =>
            Ok (write_all (writes lower G (all_items gs)) (<["form_name" := VStr n]> md))
        end
    end
  ∧ ∀ md m,
      fm = Post md →
      (Form._serialize_as_front_matter lower G (Form.mk n gs fm i)).2 = Ok m →
      (∀ k, m !! k = match last_write k (writes lower G (all_items gs)) with
                     | Some v => Some v
                     | None => if decide (k = "form_name") then Some (VStr n)
                               else md !! k
                     end)
      ∧ ((∀ x, x ∈ exported (all_items gs) →
               lower (FormItem.name x) ≠ "form_name") →
         m !! "form_name" = Some (VStr n))
      ∧ (∀ pre x post,
           exported (all_items gs) = pre ++ x :: post →
           (∀ y, y ∈ post →
                 lower (FormItem.name y) ≠ lower (FormItem.name x)) →
           m !! lower (FormItem.name x) = Some (hooked_value G x))
      ∧ (∀ k, k ≠ "form_name" →
              (∀ x, x ∈ all_items gs → FormItem.html_type x ≠ "submit" →
                    lower (FormItem.name x) ≠ k) →
              m !! k = md !! k).
Proof.
  split; [apply serialize_front_matter_result|].
  intros md m -> Hm. rewrite serialize_front_matter_result in Hm.
  destruct (first_hook_error G (all_items gs)); [done|].
  injection Hm as <-.
  assert (∀ k, write_all (writes lower G (all_items gs)) (<["form_name" := VStr n]> md) !! k
               = match last_write k (writes lower G (all_items gs)) with
                 | Some v => Some v
                 | None => if decide (k = "form_name") then Some (VStr n)
                           else md !! k
                 end) as Hlookup.
  { intros k. rewrite write_all_lookup.
    destruct (last_write k _); [done|].
    destruct (decide (k = "form_name")) as [->|Hne].
    - apply lookup_insert_eq.
    - by apply lookup_insert_ne. }
  split; [done|]. split; [|split].
  - intros Hnames. rewrite Hlookup, last_write_None; [done|].
    intros kv (x & -> & Hx)%list_elem_of_fmap. cbn. by apply Hnames.
  - intros pre x post Hex Hpost. rewrite Hlookup. unfold writes. rewrite Hex.
    by rewrite (last_write_item G _ pre x post eq_refl Hpost).
  - intros k Hk Hitems. rewrite Hlookup, last_write_None.
    + by rewrite decide_False.
    + intros kv (x & Hx & Hc & ->)%writes_keys. apply Hitems; [done|].
      by rewrite <- control_iff.
Qed.

(** *** Controls are skipped *)

Lemma after_hooks_control G x :
  FormItem.html_type x ∈ CONTROL_TYPES → after_hooks G x = x.
Proof. intros Hc. unfold after_hooks. by rewrite bool_decide_eq_true_2. Qed.

Lemma after_hooks_type G x :
  FormItem.html_type (after_hooks G x) = FormItem.html_type x.
Proof. unfold after_hooks. by case_bool_decide. Qed.

(** Whatever the outcome, the loop leaves a control as it was and changes
    nothing but the value of any other item. *)
Lemma front_matter_items_frame G items md :
  Forall2 (λ x x', (FormItem.html_type x ∈ CONTROL_TYPES → x' = x)
                   ∧ same_but_value x x')
    items (Form.front_matter_items lower G items md).1.1.
Proof.
  revert md. induction items as [|x items IH]; intros md; [constructor|].
  cbn [Form.front_matter_items]. case_bool_decide as Hc.
  - specialize (IH md).
    destruct (Form.front_matter_items lower G items md) as [[items' md'] r].
    constructor; [|done]. split; [done|]. by destruct x.
  - rewrite run_hooks_outcome. destruct (hook_error G x) as [e|].
    + constructor; [done|]. clear. induction items as [|y items IH]; constructor.
      * split; [done|]. by destruct y.
      * done.
    + match goal with |- context [Form.front_matter_items lower G items ?m] =>
        specialize (IH m); destruct (Form.front_matter_items lower G items m) as [[items' md'] r]
      end.
      constructor; done.
Qed.

Lemma front_matter_groups_frame G groups md :
  Forall2 (λ g g',
             Group.name g' = Group.name g
             ∧ Forall2 (λ x x', (FormItem.html_type x ∈ CONTROL_TYPES → x' = x)
                                ∧ same_but_value x x')
                 (Group.items g) (Group.items g'))
    groups (Form.front_matter_groups lower G groups md).1.1.
Proof.
  revert md. induction groups as [|g groups IH]; intros md; [constructor|].
  cbn [Form.front_matter_groups].
  pose proof (front_matter_items_frame G (Group.items g) md) as Hi.
  destruct (Form.front_matter_items lower G (Group.items g) md) as [[items' md'] r].
  destruct r as [[]|e].
  - specialize (IH md').
    destruct (Form.front_matter_groups lower G groups md') as [[groups' md''] r'].
    constructor; done.
  - constructor; [done|]. clear. induction groups as [|h groups IH]; constructor.
    + split; [done|]. induction (Group.items h) as [|y l IHl]; constructor.
      * split; [done|]. by destruct y.
      * done.
    + done.
Qed.

(** The hooks of a control play no part: emptying them changes neither the
    outcome nor the items and the metadata the loop leaves. *)
Lemma front_matter_items_drop G items md :
  Form.front_matter_items lower G (drop_control_hooks_item <$> items) md
  = (drop_control_hooks_item <$> (Form.front_matter_items lower G items md).1.1,
     (Form.front_matter_items lower G items md).1.2,
     (Form.front_matter_items lower G items md).2).
Proof.
  revert md. induction items as [|x items IH]; intros md; [reflexivity|].
  rewrite fmap_cons. cbn [Form.front_matter_items].
  assert (FormItem.html_type (drop_control_hooks_item x) = FormItem.html_type x)
    as Hty by (unfold drop_control_hooks_item; by case_bool_decide).
  rewrite Hty. case_bool_decide as Hc.
  - rewrite IH. by destruct (Form.front_matter_items lower G items md) as [[items' md'] r].
  - assert (∀ y, FormItem.html_type y = FormItem.html_type x →
                 drop_control_hooks_item y = y) as Hsame.
    { intros y Hy. unfold drop_control_hooks_item.
      rewrite Hy. by rewrite bool_decide_eq_false_2. }
    rewrite (Hsame x eq_refl), run_hooks_outcome.
    destruct (hook_error G x) as [e|].
    + cbn. by rewrite (Hsame (FormItem.set_value x (hooked_value G x)) eq_refl).
    + rewrite IH.
      destruct (Form.front_matter_items lower G items _) as [[items' md'] r].
      cbn. by rewrite (Hsame (FormItem.set_value x (hooked_value G x)) eq_refl).
Qed.

Lemma front_matter_groups_drop G groups md :
  Form.front_matter_groups lower G (drop_control_hooks_group <$> groups) md
  = (drop_control_hooks_group <$> (Form.front_matter_groups lower G groups md).1.1,
     (Form.front_matter_groups lower G groups md).1.2,
     (Form.front_matter_groups lower G groups md).2).
Proof.
  revert md. induction groups as [|g groups IH]; intros md; [done|].
  rewrite fmap_cons. cbn [Form.front_matter_groups].
  unfold drop_control_hooks_group at 1. cbn [Group.items Group.name].
  rewrite front_matter_items_drop.
  destruct (Form.front_matter_items lower G (Group.items g) md) as [[items' md'] r].
  cbn [fst snd]. destruct r as [[]|e].
  - rewrite IH.
    destruct (Form.front_matter_groups lower G groups md') as [[groups' md''] r'].
    done.
  - done.
Qed.

(** C10: the export skips a control before it runs any hook.  Whatever the
    outcome of the call, every control of the form is afterwards exactly as
    it was, value included, and the other items differ in their value at
    most; and the hooks a control carries are never run: the outcome of the
    call and the form it leaves are those of the form whose controls carry
    no hooks, even when a hook of a control names nothing that could be
    called. *)
Theorem serialize_front_matter_skips_controls (G : gmap string GlobalObj)
    (f : Form.t) :
  Forall2 (λ g g',
             Group.name g' = Group.name g
             ∧ Forall2 (λ x x', (FormItem.html_type x = "submit" → x' = x)
                                ∧ same_but_value x x')
                 (Group.items g) (Group.items g'))
    (Form.groups f) (Form.groups (Form._serialize_as_front_matter lower G f).1)
  ∧ (Form._serialize_as_front_matter lower G (drop_control_hooks f)).2
    = (Form._serialize_as_front_matter lower G f).2
  ∧ (Form._serialize_as_front_matter lower G (drop_control_hooks f)).1
    = drop_control_hooks (Form._serialize_as_front_matter lower G f).1.
Proof.
  destruct f as [n gs fm i]. unfold Form._serialize_as_front_matter, drop_control_hooks.
  cbn [Form.front_matter Form.groups Form.name Form.id].
  destruct fm as [md|s].
  - rewrite front_matter_groups_drop.
    pose proof (front_matter_groups_frame G gs (<["form_name" := VStr n]> md)) as Hframe.
    destruct (Form.front_matter_groups lower G gs _) as [[gs' md'] r].
    cbn [fst snd Form.groups] in *. split; [|done].
    eapply Forall2_impl; [exact Hframe|]. intros g g' [Hn Hitems].
    split; [done|]. eapply Forall2_impl; [exact Hitems|].
    intros x x' [Hc Hv]. split; [|done]. intros Hs. by apply Hc, control_iff.
  - cbn [fst snd Form.groups]. split; [|done].
    induction gs as [|g gs IH]; constructor; [|done].
    split; [done|]. induction (Group.items g) as [|y l IHl]; constructor; [|done].
    split; [done|]. by destruct y.
Qed.

(** *** Calling the export twice *)

Lemma all_items_after G gs :
  all_items (group_after_hooks G <$> gs) = after_hooks G <$> all_items gs.
Proof.
  induction gs as [|g gs IH]; [done|].
  rewrite fmap_cons, !all_items_cons, fmap_app, IH. done.
Qed.

Lemma exported_after G items :
  exported (after_hooks G <$> items)
  = (λ x, FormItem.set_value x (hooked_value G x)) <$> exported items.
Proof.
  induction items as [|x items IH]; [done|].
  rewrite fmap_cons, !exported_cons, after_hooks_type, IH.
  unfold after_hooks. by case_bool_decide.
Qed.

Lemma writes_after G items :
  writes lower G (after_hooks G <$> items)
  = (λ x, (lower (FormItem.name x), hooked_twice G x)) <$> exported items.
Proof.
  unfold writes. rewrite exported_after, <- list_fmap_compose.
  by apply list_fmap_ext.
Qed.

Lemma last_write_Some k ws kv :
  kv ∈ ws → kv.1 = k → is_Some (last_write k ws).
Proof.
  induction ws as [|[k' v] ws IH]; intros Hin Hk; [by apply elem_of_nil in Hin|].
  rewrite last_write_cons. apply elem_of_cons in Hin as [->|Hin].
  - cbn in Hk. rewrite decide_True by done. by destruct (last_write k ws).
  - destruct (IH Hin Hk) as [v' ->]. done.
Qed.

(** Two assignment lists with the same keys are assigned together. *)
Lemma last_write_same_keys {A} k (f1 f2 : A → string * pyval) l :
  (∀ a, (f1 a).1 = (f2 a).1) →
  last_write k (f2 <$> l) = None → last_write k (f1 <$> l) = None.
Proof.
  intros Hkeys Hnone. apply last_write_None.
  intros kv (a & -> & Ha)%list_elem_of_fmap Hk.
  assert (is_Some (last_write k (f2 <$> l))) as [v Hv].
  { apply (last_write_Some k _ (f2 a)).
    - apply list_elem_of_fmap. eauto.
    - by rewrite <- Hkeys. }
  congruence.
Qed.

Lemma returns_first_hook_error G n gs md i :
  returns (Form._serialize_as_front_matter lower G (Form.mk n gs (Post md) i)).2 = true →
  first_hook_error G (all_items gs) = None.
Proof.
  rewrite serialize_front_matter_result.
  by destruct (first_hook_error G (all_items gs)).
Qed.

(** C5, as the code has it: the export writes the values its hooks produce
    back into the items and its assignments into the stored metadata.  When
    two calls in a row both return, every item that is not a control is left
    with its hooks applied twice to the original value (a control is left as
    it was), the second call returns the metadata of the form, and in it a
    key holds the twice-hooked value of the last item assigned to it: the
    key of an item holds that item's value unless a later item has the same
    lowercased name. *)
Theorem serialize_front_matter_twice (G : gmap string GlobalObj)
    (n : string) (gs : list Group.t) (md : gmap string pyval) (i : string) :
  let first := Form._serialize_as_front_matter lower G (Form.mk n gs (Post md) i) in
  let second := Form._serialize_as_front_matter lower G first.1 in
  returns first.2 = true →
  returns second.2 = true →
  Form.groups second.1
  = (λ g, group_after_hooks G (group_after_hooks G g)) <$> gs
  ∧ ∃ m2,
      second.2 = Ok m2
      ∧ Form.front_matter second.1 = Post m2
      ∧ (∀ k, m2 !! k
              = match last_write k
                        ((λ x, (lower (FormItem.name x), hooked_twice G x))
                           <$> exported (all_items gs)) with
                | Some v => Some v
                | None => if decide (k = "form_name") then Some (VStr n)
                          else md !! k
                end)
      ∧ (∀ pre x post,
           exported (all_items gs) = pre ++ x :: post →
           (∀ y, y ∈ post →
                 lower (FormItem.name y) ≠ lower (FormItem.name x)) →
           m2 !! lower (FormItem.name x) = Some (hooked_twice G x)).
Proof.
  intros first second H1 H2. subst second first.
  pose proof (returns_first_hook_error _ _ _ _ _ H1) as Herr1.
  rewrite (serialize_front_matter_state _ _ _ _ _ Herr1) in *.
  pose proof (returns_first_hook_error _ _ _ _ _ H2) as Herr2.
  rewrite (serialize_front_matter_state _ _ _ _ _ Herr2).
  rewrite serialize_front_matter_result, Herr2.
  cbn [Form.groups Form.front_matter]. split.
  { by rewrite <- list_fmap_compose. }
  eexists. split; [done|]. split; [done|].
  rewrite all_items_after, writes_after.
  set (ws2 := (λ x, (lower (FormItem.name x), hooked_twice G x))
                <$> exported (all_items gs)).
  assert (∀ k, write_all ws2
                 (<["form_name" := VStr n]>
                    (write_all (writes lower G (all_items gs))
                       (<["form_name" := VStr n]> md))) !! k
               = match last_write k ws2 with
                 | Some v => Some v
                 | None => if decide (k = "form_name") then Some (VStr n)
                           else md !! k
                 end) as Hlookup.
  { intros k. rewrite write_all_lookup.
    destruct (last_write k ws2) eqn:Hk; [done|].
    destruct (decide (k = "form_name")) as [->|Hne]; [apply lookup_insert_eq|].
    rewrite lookup_insert_ne, write_all_lookup by done.
    unfold writes.
    rewrite (last_write_same_keys k
               (λ x, (lower (FormItem.name x), hooked_value G x))
               (λ x, (lower (FormItem.name x), hooked_twice G x))
               (exported (all_items gs)) (λ _, eq_refl) Hk).
    by apply lookup_insert_ne. }
  split; [done|].
  intros pre x post Hex Hpost. rewrite Hlookup. subst ws2. rewrite Hex.
  rewrite fmap_app, fmap_cons, last_write_app, last_write_cons.
  rewrite last_write_None.
  - by rewrite decide_True.
  - intros kv (y & -> & Hy)%list_elem_of_fmap. cbn. by apply Hpost.
Qed.

(** The mapping of a second call that returns after a first that
    returned, key by key. *)
Lemma second_export_lookup G n gs md i f1 m1 f2 m2 k :
  Form._serialize_as_front_matter lower G (Form.mk n gs (Post md) i) = (f1, Ok m1) →
  Form._serialize_as_front_matter lower G f1 = (f2, Ok m2) →
  m2 !! k
  = match last_write k
            ((λ x, (lower (FormItem.name x), hooked_twice G x))
               <$> exported (all_items gs)) with
    | Some v => Some v
    | None =>
        <["form_name" := VStr n]>
          (write_all (writes lower G (all_items gs))
             (<["form_name" := VStr n]> md)) !! k
    end.
Proof.
  intros H1 H2.
  assert (returns (Form._serialize_as_front_matter lower G
                     (Form.mk n gs (Post md) i)).2 = true) as R1
    by (by rewrite H1).
  pose proof (returns_first_hook_error _ _ _ _ _ R1) as Herr1.
  assert (f1 = (Form._serialize_as_front_matter lower G
                  (Form.mk n gs (Post md) i)).1) as -> by (by rewrite H1).
  rewrite (serialize_front_matter_state _ _ _ _ _ Herr1) in H2.
  apply (f_equal snd) in H2. cbn [snd] in H2.
  rewrite serialize_front_matter_result in H2.
  destruct (first_hook_error G (all_items (group_after_hooks G <$> gs)));
    [done|].
  injection H2 as <-.
  by rewrite write_all_lookup, all_items_after, writes_after.
Qed.

(** *** An item whose only hook is [slugify] *)

Lemma run_hooks_slugify G n s p ty i :
  G !! "slugify" = Some (slugify_global lower) →
  FormItem._run_hooks G (FormItem.mk n (VStr s) p ty i ["slugify"])
  = (FormItem.mk n (VStr (slugify lower s)) p ty i ["slugify"], Ok ()).
Proof.
  intros Hs. unfold FormItem._run_hooks.
  cbn [FormItem.hooks FormItem.value FormItem.run_hooks_from].
  by rewrite Hs.
Qed.

Lemma hooked_value_slugify G n s p ty i :
  G !! "slugify" = Some (slugify_global lower) →
  hooked_value G (FormItem.mk n (VStr s) p ty i ["slugify"])
  = VStr (slugify lower s).
Proof. intros Hs. unfold hooked_value. by rewrite run_hooks_slugify. Qed.

Lemma hook_error_slugify G n s p ty i :
  G !! "slugify" = Some (slugify_global lower) →
  hook_error G (FormItem.mk n (VStr s) p ty i ["slugify"]) = None.
Proof. intros Hs. unfold hook_error. by rewrite run_hooks_slugify. Qed.

Lemma hooked_twice_slugify G n s p ty i :
  G !! "slugify" = Some (slugify_global lower) →
  hooked_twice G (FormItem.mk n (VStr s) p ty i ["slugify"])
  = VStr (slugify lower (slugify lower s)).
Proof.
  intros Hs. unfold hooked_twice. rewrite hooked_value_slugify by done.
  unfold FormItem.set_value.
  cbn [FormItem.name FormItem.placeholder FormItem.html_type FormItem.id
         FormItem.hooks].
  by rewrite hooked_value_slugify.
Qed.

(** ** Loading a form from a specification *)

Lemma validate_str_Ok o s : validate_str o = Ok s ↔ o = OStr s.
Proof. destruct o; cbn; split; intros [=]; by subst. Qed.

Lemma validate_each_Ok {A} (validate : pyobj → result A) l l' :
  validate_each validate l = Ok l' ↔ Forall2 (λ o a, validate o = Ok a) l l'.
Proof.
  revert l'. induction l as [|o l IH]; intros l'; cbn.
  - split; [intros [= <-]; constructor|]. by intros ->%Forall2_nil_inv_l.
  - split.
    + destruct (validate o) as [a|] eqn:Ho; [|done].
      destruct (validate_each validate l) as [l''|]; [|done].
      intros [= <-]. constructor; [done|]. by apply IH.
    + intros (a & l'' & Ho & Hl & ->)%Forall2_cons_inv_l.
      rewrite Ho. apply IH in Hl. by rewrite Hl.
Qed.

Lemma validate_str_list_Ok o hs :
  validate_list validate_str o = Ok hs ↔ o = OList (OStr <$> hs).
Proof.
  destruct o as [| | | |l|]; cbn [validate_list].
  1-4,6: split; intros [=].
  rewrite validate_each_Ok. split.
  - intros Hl. f_equal. induction Hl as [|o s l hs Ho _ IH]; [done|].
    apply validate_str_Ok in Ho as ->. by rewrite fmap_cons, IH.
  - intros [= ->]. induction hs as [|s hs IH]; constructor; done.
Qed.

Lemma required_Ok {A} (validate : pyobj → result A) k d a :
  required validate k d = Ok a ↔ ∃ o, dict_get k d = Some o ∧ validate o = Ok a.
Proof.
  unfold required. destruct (dict_get k d) as [o|].
  - split; [eauto|]. by intros (o' & [= <-] & Ho).
  - split; [done|]. by intros (o' & [=] & _).
Qed.

Lemma optional_Ok {A} (validate : pyobj → result A) k d default a :
  optional validate k d default = Ok a
  ↔ match dict_get k d with
    | Some o => validate o = Ok a
    | None => a = default
    end.
Proof.
  unfold optional. destruct (dict_get k d); [done|]. split; [by intros [= <-]|by intros ->].
Qed.

Lemma optional_supplied {A} (validate : pyobj → result A) k d default a read :
  optional validate k d default = Ok a →
  (∀ o, validate o = Ok a → o = read) →
  supplied d k read.
Proof.
  intros Hopt Hread v Hv. apply optional_Ok in Hopt. rewrite Hv in Hopt. auto.
Qed.

(** An item that validates reads back as its dictionary. *)
Lemma item_validate_reads_back D o x :
  FormItem.validate D o = Ok x → item_reads_back o x.
Proof.
  destruct o as [| | | | |d]; try done. cbn [FormItem.validate].
  destruct (required validate_str "name" d) as [n|] eqn:Hn; [|done].
  destruct (optional validate_str "value" d "") as [v|] eqn:Hv; [|done].
  destruct (optional validate_str "placeholder" d "") as [p|] eqn:Hp; [|done].
  destruct (optional validate_str "html_type" d "text") as [ty|] eqn:Hty; [|done].
  destruct (optional validate_str "id" d (FormItem_id D)) as [i|] eqn:Hi; [|done].
  destruct (optional (validate_list validate_str) "hooks" d []) as [hs|] eqn:Hhs;
    [|done].
  intros [= <-]. exists d. cbn.
  apply required_Ok in Hn as (o & Ho & ->%validate_str_Ok).
  repeat split; try done.
  - eapply optional_supplied; [exact Hv|]. by intros o' ->%validate_str_Ok.
  - eapply optional_supplied; [exact Hp|]. by intros o' ->%validate_str_Ok.
  - eapply optional_supplied; [exact Hty|]. by intros o' ->%validate_str_Ok.
  - eapply optional_supplied; [exact Hi|]. by intros o' ->%validate_str_Ok.
  - eapply optional_supplied; [exact Hhs|]. by intros o' ->%validate_str_list_Ok.
Qed.

Lemma validate_list_Ok {A} (validate : pyobj → result A) o l' :
  validate_list validate o = Ok l'
  ↔ ∃ l, o = OList l ∧ Forall2 (λ o a, validate o = Ok a) l l'.
Proof.
  destruct o as [| | | |l|]; cbn [validate_list].
  1-4,6: split; [intros [=]|by intros (? & [=] & _)].
  rewrite validate_each_Ok. split; [eauto|]. by intros (? & [= <-] & ?).
Qed.

Lemma group_validate_reads_back D o g :
  Group.validate D o = Ok g → group_reads_back o g.
Proof.
  destruct o as [| | | | |d]; try done. cbn [Group.validate].
  destruct (required validate_str "name" d) as [n|] eqn:Hn; [|done].
  destruct (required (validate_list (FormItem.validate D)) "items" d)
    as [its|] eqn:Hits; [|done].
  intros [= <-].
  apply required_Ok in Hn as (o & Ho & ->%validate_str_Ok).
  apply required_Ok in Hits as (o' & Ho' & (l & -> & Hl)%validate_list_Ok).
  exists d, l. cbn. repeat split; try done.
  eapply Forall2_impl; [exact Hl|]. intros ??. apply item_validate_reads_back.
Qed.

Lemma form_load_reads_back D o f :
  Form.load_from_specification D o = Ok f → form_reads_back o f.
Proof.
  destruct o as [| | | | |d]; try done. cbn [Form.load_from_specification].
  unfold Form.init.
  destruct (required validate_str "name" d) as [n|] eqn:Hn; [|done].
  destruct (required (validate_list (Group.validate D)) "groups" d)
    as [gs|] eqn:Hgs; [|done].
  destruct (optional _ "front_matter" d _) as [fm|] eqn:Hfm; [|done].
  destruct (optional validate_str "id" d (Form_id D)) as [i|] eqn:Hi; [|done].
  intros [= <-].
  apply required_Ok in Hn as (o & Ho & ->%validate_str_Ok).
  apply required_Ok in Hgs as (o' & Ho' & (l & -> & Hl)%validate_list_Ok).
  exists d, l. cbn. repeat split; try done.
  - eapply Forall2_impl; [exact Hl|]. intros ??. apply group_validate_reads_back.
  - eapply optional_supplied; [exact Hi|]. by intros o'' ->%validate_str_Ok.
Qed.

(** *** A well-formed specification loads *)

Lemma is_str_validate o : is_str o = true → ∃ s, validate_str o = Ok s.
Proof. destruct o; try done. eauto. Qed.

Lemma is_list_of_validate {A} (p : pyobj → bool) (validate : pyobj → result A) o :
  (∀ o', p o' = true → ∃ a, validate o' = Ok a) →
  is_list_of p o = true → ∃ l, validate_list validate o = Ok l.
Proof.
  intros Hp. destruct o as [| | | |l|]; try done. cbn.
  induction l as [|o l IH]; intros Hl; [by exists []|].
  cbn in Hl. apply andb_true_iff in Hl as [Ho Hl].
  destruct (Hp o Ho) as [a Ha]. destruct (IH Hl) as [l' Hl'].
  exists (a :: l'). cbn. by rewrite Ha, Hl'.
Qed.

Lemma has_required {A} (p : pyobj → bool) (validate : pyobj → result A) k d :
  (∀ o, p o = true → ∃ a, validate o = Ok a) →
  has p k d = true → ∃ a, required validate k d = Ok a.
Proof.
  intros Hp. unfold has, required. destruct (dict_get k d); [apply Hp|done].
Qed.

Lemma may_have_optional {A} (p : pyobj → bool) (validate : pyobj → result A)
    k d default :
  (∀ o, p o = true → ∃ a, validate o = Ok a) →
  may_have p k d = true → ∃ a, optional validate k d default = Ok a.
Proof.
  intros Hp. unfold may_have, optional. destruct (dict_get k d); [apply Hp|eauto].
Qed.

Lemma item_spec_ok_validate D o :
  item_spec_ok o = true → ∃ x, FormItem.validate D o = Ok x.
Proof.
  destruct o as [| | | | |d]; try done. cbn [item_spec_ok FormItem.validate].
  rewrite !andb_true_iff. intros [[[[[Hn Hv] Hp] Hty] Hi] Hhs].
  destruct (has_required _ validate_str _ _ is_str_validate Hn) as [n ->].
  destruct (may_have_optional _ validate_str _ _ "" is_str_validate Hv) as [v ->].
  destruct (may_have_optional _ validate_str _ _ "" is_str_validate Hp) as [p ->].
  destruct (may_have_optional _ validate_str _ _ "text" is_str_validate Hty) as [ty ->].
  destruct (may_have_optional _ validate_str _ _ (FormItem_id D) is_str_validate Hi)
    as [i ->].
  destruct (may_have_optional _ (validate_list validate_str) _ _ []
              (λ o, is_list_of_validate is_str validate_str o is_str_validate) Hhs)
    as [hs ->].
  eauto.
Qed.

Lemma group_spec_ok_validate D o :
  group_spec_ok o = true → ∃ g, Group.validate D o = Ok g.
Proof.
  destruct o as [| | | | |d]; try done. cbn [group_spec_ok Group.validate].
  rewrite !andb_true_iff. intros [Hn Hits].
  destruct (has_required _ validate_str _ _ is_str_validate Hn) as [n ->].
  destruct (has_required _ (validate_list (FormItem.validate D)) _ _
              (λ o, is_list_of_validate item_spec_ok (FormItem.validate D) o
                      (item_spec_ok_validate D)) Hits) as [its ->].
  eauto.
Qed.

Lemma is_str_front_matter o :
  is_str o = true → ∃ fm, FrontMatterStr <$> validate_str o = Ok fm.
Proof. destruct o; try done. cbn. eauto. Qed.

Lemma form_spec_ok_load D o :
  form_spec_ok o = true → ∃ f, Form.load_from_specification D o = Ok f.
Proof.
  destruct o as [| | | | |d]; try done.
  cbn [form_spec_ok Form.load_from_specification]. unfold Form.init.
  rewrite !andb_true_iff. intros [[[Hn Hgs] Hfm] Hi].
  destruct (has_required _ validate_str _ _ is_str_validate Hn) as [n ->].
  destruct (has_required _ (validate_list (Group.validate D)) _ _
              (λ o, is_list_of_validate group_spec_ok (Group.validate D) o
                      (group_spec_ok_validate D)) Hgs) as [gs ->].
  destruct (may_have_optional _ (λ o, FrontMatterStr <$> validate_str o) _ _
              (Post (Form_front_matter D))
              is_str_front_matter Hfm) as [fm ->].
  destruct (may_have_optional _ validate_str _ _ (Form_id D) is_str_validate Hi)
    as [i ->].
  eauto.
Qed.

(** C6: a specification that supplies the name, the groups with their names
    and items, and the fields of the items with values of the declared
    types loads, and the form reads back as the specification: its name and
    the names of its groups are those supplied, in order, and every field
    an item (or the form) supplies is the value of that field. *)
Theorem load_round_trip (D : ClassDefaults) (specification : pyobj) :
  form_spec_ok specification = true →
  ∃ f,
    Form.load_from_specification D specification = Ok f
    ∧ form_reads_back specification f.
Proof.
  intros Hok. destruct (form_spec_ok_load D _ Hok) as [f Hf].
  exists f. split; [done|]. by apply (form_load_reads_back D).
Qed.

Lemma load_round_trip_witness :
  ∃ f,
    Form.load_from_specification (define_classes "item-id" "form-id") spec = Ok f
    ∧ form_reads_back spec f.
Proof.
  apply (load_round_trip (define_classes "item-id" "form-id") spec).
  vm_compute. reflexivity.
Defined.

(** C4: the default identifier is computed once, when the class body is
    executed.  Any two items built from dictionaries without an "id" key
    carry the identifier drawn for [FormItem], so the same one, and any two
    forms built without an "id" key carry the identifier drawn for
    [Form]. *)
Theorem default_id_shared (uuid_item uuid_form : string) :
  (∀ d1 d2 x1 x2,
     dict_get "id" d1 = None → dict_get "id" d2 = None →
     FormItem.validate (define_classes uuid_item uuid_form) (ODict d1) = Ok x1 →
     FormItem.validate (define_classes uuid_item uuid_form) (ODict d2) = Ok x2 →
     FormItem.id x1 = uuid_item ∧ FormItem.id x1 = FormItem.id x2)
  ∧ (∀ d1 d2 f1 f2,
       dict_get "id" d1 = None → dict_get "id" d2 = None →
       Form.load_from_specification (define_classes uuid_item uuid_form) (ODict d1)
       = Ok f1 →
       Form.load_from_specification (define_classes uuid_item uuid_form) (ODict d2)
       = Ok f2 →
       Form.id f1 = uuid_form ∧ Form.id f1 = Form.id f2).
Proof.
  assert (∀ d x, dict_get "id" d = None →
                 FormItem.validate (define_classes uuid_item uuid_form) (ODict d) = Ok x →
                 FormItem.id x = uuid_item) as Hitem.
  { intros d x Hid. cbn [FormItem.validate]. unfold optional at 4. rewrite Hid.
    destruct (required _ _ _); [|done].
    do 3 (destruct (optional validate_str _ _ _); [|done]).
    destruct (optional _ _ _ _); [|done]. by intros [= <-]. }
  assert (∀ d f, dict_get "id" d = None →
                 Form.load_from_specification (define_classes uuid_item uuid_form)
                   (ODict d) = Ok f →
                 Form.id f = uuid_form) as Hform.
  { intros d f Hid. cbn [Form.load_from_specification]. unfold Form.init.
    unfold optional at 2. rewrite Hid.
    do 2 (destruct (required _ _ _); [|done]).
    destruct (optional _ _ _ _); [|done]. by intros [= <-]. }
  split.
  - intros d1 d2 x1 x2 H1 H2 Hx1 Hx2.
    by rewrite (Hitem d1 x1 H1 Hx1), (Hitem d2 x2 H2 Hx2).
  - intros d1 d2 f1 f2 H1 H2 Hf1 Hf2.
    by rewrite (Hform d1 f1 H1 Hf1), (Hform d2 f2 H2 Hf2).
Qed.

Lemma default_id_shared_witness :
  FormItem.id (FormItem.mk "Title" (VStr "Coffee") "" "text" "item-id" []) = "item-id"
  ∧ FormItem.id (FormItem.mk "Title" (VStr "Coffee") "" "text" "item-id" [])
    = FormItem.id (FormItem.mk "Body" (VStr "") "" "textarea" "item-id" []).
Proof.
  apply (proj1 (default_id_shared "item-id" "form-id")
           [ ("name", OStr "Title"); ("value", OStr "Coffee") ]
           [ ("name", OStr "Body"); ("html_type", OStr "textarea") ]);
    reflexivity.
Defined.

(** * Further properties of the code *)

(** ** The renderer table *)

(** X2: the renderer table and the declared types agree: a type has a
    renderer exactly when it is in [HTML_TYPE], and every control type is
    such a type, so a control always renders. *)
Theorem render_table_covers_types :
  dom RENDER_FUNCTIONS = HTML_TYPE
  ∧ CONTROL_TYPES ⊆ HTML_TYPE
  ∧ ∀ x, FormItem.html_type x ∈ CONTROL_TYPES →
         returns (FormItem._serialize_as_html x) = true.
Proof.
  split; [apply RENDER_FUNCTIONS_dom|].
  assert (CONTROL_TYPES ⊆ HTML_TYPE) as Hsub.
  { unfold CONTROL_TYPES, HTML_TYPE. set_solver. }
  split; [done|]. intros x Hc.
  destruct (serialize_item_supported x (Hsub _ Hc)) as (control & _ & ->). done.
Qed.

(** ** The value of an item in its rendering *)

Lemma slots_app f tpl1 tpl2 : slots f (tpl1 ++ tpl2) = slots f tpl1 + slots f tpl2.
Proof. unfold slots. by rewrite filter_app, List.length_app. Qed.

Lemma slots_split f tpl :
  slots f tpl = 1 →
  ∃ tpl1 tpl2, tpl = tpl1 ++ Fld f :: tpl2 ∧ slots f tpl1 = 0 ∧ slots f tpl2 = 0.
Proof.
  induction tpl as [|p tpl IH]; [done|]. rewrite slots_cons.
  destruct (decide (p = Fld f)) as [->|Hp]; intros Hs.
  - exists [], tpl. split; [done|]. split; [done|]. lia.
  - destruct IH as (tpl1 & tpl2 & -> & H1 & H2); [lia|].
    exists (p :: tpl1), tpl2. split; [done|]. split; [|done].
    rewrite slots_cons, decide_False by done. lia.
Qed.

(** A template without a slot for the value formats alike whatever the
    value of the item. *)
Lemma format_without_value x v tpl :
  slots f_value tpl = 0 →
  format (FormItem.get (FormItem.set_value x v)) tpl = format (FormItem.get x) tpl.
Proof.
  induction tpl as [|p tpl IH]; [done|]. rewrite slots_cons.
  destruct (decide (p = Fld f_value)) as [->|Hp]; [done|]. intros Hs.
  cbn [format]. rewrite IH by lia. f_equal.
  destruct p as [s| |[]]; done.
Qed.

(** X3: the value of an item is written into its rendering verbatim, at one
    place: for an item of a supported type there are a text before and a
    text after, the same for every value, between which the rendering
    holds [str(value)] unescaped. *)
Theorem serialize_item_value_verbatim (x : FormItem.t) :
  FormItem.html_type x ∈ HTML_TYPE →
  ∃ before after,
    ∀ v, FormItem._serialize_as_html (FormItem.set_value x v)
         = Ok (before +:+ py_str v +:+ after).
Proof.
  intros Hty. destruct (proj1 (supported_is_Some _) Hty) as [control Hc].
  assert (item_template (FormItem.html_type x) = Some (FormItem.label ++ control))
    as Htpl by (unfold item_template; by rewrite Hc).
  destruct (item_template_slots _ _ Htpl) as (_ & _ & Hv & _).
  destruct (slots_split _ _ Hv) as (tpl1 & tpl2 & Hsplit & H1 & H2).
  exists (format (FormItem.get x) tpl1), (format (FormItem.get x) tpl2).
  intros v. unfold FormItem._serialize_as_html.
  cbn [FormItem.set_value FormItem.html_type]. rewrite Hc.
  rewrite <- format_app, Hsplit, format_app. cbn [format piece_text FormItem.get].
  cbn [FormItem.set_value FormItem.value].
  by rewrite !format_without_value.
Qed.

Lemma serialize_item_value_verbatim_witness :
  ∃ before after,
    ∀ v, FormItem._serialize_as_html (FormItem.set_value title_item v)
         = Ok (before +:+ py_str v +:+ after).
Proof.
  apply (serialize_item_value_verbatim title_item).
  apply (bool_decide_unpack _). vm_compute. exact I.
Defined.

(** ** Loading: which specifications load, and the defaults *)










(** X5: the fields a dictionary leaves out take the defaults the class
    declares: an item without value, placeholder, html_type, hooks or id
    has the empty value and placeholder, the type text, no hooks and the
    identifier of the class; and an item without html_type always
    renders. *)
Theorem item_defaults (D : ClassDefaults) (d : list (string * pyobj))
    (x : FormItem.t) :
  FormItem.validate D (ODict d) = Ok x →
  (dict_get "value" d = None → FormItem.value x = VStr "")
  ∧ (dict_get "placeholder" d = None → FormItem.placeholder x = "")
  ∧ (dict_get "html_type" d = None →
     FormItem.html_type x = "text"
     ∧ returns (FormItem._serialize_as_html x) = true)
  ∧ (dict_get "hooks" d = None → FormItem.hooks x = [])
  ∧ (dict_get "id" d = None → FormItem.id x = FormItem_id D).
Proof.
  cbn [FormItem.validate].
  destruct (required validate_str "name" d) as [n|] eqn:Hn; [|done].
  destruct (optional validate_str "value" d "") as [v|] eqn:Hv; [|done].
  destruct (optional validate_str "placeholder" d "") as [p|] eqn:Hp; [|done].
  destruct (optional validate_str "html_type" d "text") as [ty|] eqn:Hty; [|done].
  destruct (optional validate_str "id" d (FormItem_id D)) as [i|] eqn:Hi; [|done].
  destruct (optional (validate_list validate_str) "hooks" d []) as [hs|] eqn:Hhs;
    [|done].
  intros [= <-]. cbn.
  apply optional_Ok in Hv, Hp, Hty, Hi, Hhs.
  split; [|split; [|split; [|split]]]; intros Hnone; rewrite Hnone in *; subst;
    [done|done| |done|done].
  split; [done|]. unfold FormItem._serialize_as_html.
  cbn [FormItem.html_type].
  by replace (RENDER_FUNCTIONS !! "text") with (Some (input_control "text"))
    by reflexivity.
Qed.

Lemma item_defaults_witness :
  FormItem.value (FormItem.mk "Title" (VStr "") "" "text" "item-id" []) = VStr "".
Proof.
  apply (item_defaults (define_classes "item-id" "form-id")
           [ ("name", OStr "Title") ]); reflexivity.
Defined.

(** ** The export: what it stores, and what a failure leaves *)

Lemma write_all_dom ws md :
  dom (write_all ws md) = dom md ∪ list_to_set (fst <$> ws).
Proof.
  revert md. induction ws as [|[k v] ws IH]; intros md.
  - cbn. by rewrite (right_id_L ∅ (∪)).
  - unfold write_all in *. cbn [foldl fst snd]. rewrite IH, dom_insert_L.
    rewrite fmap_cons. cbn [list_to_set fst].
    by rewrite (comm_L (∪) {[k]} (dom md)), <- (assoc_L (∪)).
Qed.

(** X6: the mapping the export returns is the stored front matter of the
    form itself, written in place: after a call that returns, the form
    holds the returned mapping, so a later call starts from it.  No stored
    key is dropped: the keys of the mapping are the stored keys, the key
    "form_name" and the lowercased names of the items that are not
    controls. *)
Theorem export_mapping_is_stored (G : gmap string GlobalObj) (n : string)
    (gs : list Group.t) (md : gmap string pyval) (i : string)
    (m : gmap string pyval) :
  (Form._serialize_as_front_matter lower G (Form.mk n gs (Post md) i)).2 = Ok m →
  Form.front_matter (Form._serialize_as_front_matter lower G (Form.mk n gs (Post md) i)).1
  = Post m
  ∧ dom m
    = {["form_name"]} ∪ dom md
      ∪ list_to_set ((λ x, lower (FormItem.name x)) <$> exported (all_items gs)).
Proof.
  intros Hm. rewrite serialize_front_matter_result in Hm.
  destruct (first_hook_error G (all_items gs)) eqn:Herr; [done|].
  injection Hm as <-. rewrite (serialize_front_matter_state _ _ _ _ _ Herr).
  split; [done|]. rewrite write_all_dom, dom_insert_L. unfold writes.
  rewrite <- list_fmap_compose. f_equal.
Qed.

Lemma front_matter_items_app G items1 items2 md :
  Form.front_matter_items lower G (items1 ++ items2) md
  = match (Form.front_matter_items lower G items1 md).2 with
    | Raise e =>
        ((Form.front_matter_items lower G items1 md).1.1 ++ items2,
         (Form.front_matter_items lower G items1 md).1.2, Raise e)
    | Ok _ =>
        ((Form.front_matter_items lower G items1 md).1.1
           ++ (Form.front_matter_items lower G items2
                 (Form.front_matter_items lower G items1 md).1.2).1.1,
         (Form.front_matter_items lower G items2
            (Form.front_matter_items lower G items1 md).1.2).1.2,
         (Form.front_matter_items lower G items2
            (Form.front_matter_items lower G items1 md).1.2).2)
    end.
Proof.
  revert md. induction items1 as [|x items1 IH]; intros md.
  - cbn. by destruct (Form.front_matter_items lower G items2 md) as [[??]?].
  - rewrite <- app_comm_cons. cbn [Form.front_matter_items].
    case_bool_decide as Hc.
    + rewrite IH.
      destruct (Form.front_matter_items lower G items1 md) as [[items1' md1] [[]|e]]; cbn;
        [|done].
      by destruct (Form.front_matter_items lower G items2 md1) as [[??]?].
    + rewrite run_hooks_outcome. destruct (hook_error G x) as [e|]; [done|].
      rewrite IH.
      destruct (Form.front_matter_items lower G items1 _) as [[items1' md1] [[]|e]]; cbn;
        [|done].
      by destruct (Form.front_matter_items lower G items2 md1) as [[??]?].
Qed.

(** The loop over the groups is the loop over all their items. *)
Lemma front_matter_groups_flat G groups md :
  Form.front_matter_items lower G (all_items groups) md
  = (all_items (Form.front_matter_groups lower G groups md).1.1,
     (Form.front_matter_groups lower G groups md).1.2,
     (Form.front_matter_groups lower G groups md).2).
Proof.
  revert md. induction groups as [|g groups IH]; intros md; [done|].
  rewrite all_items_cons, front_matter_items_app. cbn [Form.front_matter_groups].
  destruct (Form.front_matter_items lower G (Group.items g) md) as [[items' md'] [[]|e]];
    cbn [fst snd].
  - rewrite IH.
    by destruct (Form.front_matter_groups lower G groups md') as [[groups' md''] r].
  - done.
Qed.

Lemma front_matter_items_raise G pre x post md e :
  first_hook_error G pre = None →
  FormItem.html_type x ∉ CONTROL_TYPES →
  hook_error G x = Some e →
  Form.front_matter_items lower G (pre ++ x :: post) md
  = ((after_hooks G <$> pre) ++ FormItem.set_value x (hooked_value G x) :: post,
     write_all (writes lower G pre) md, Raise e).
Proof.
  intros Hpre Hx He.
  rewrite front_matter_items_app, (front_matter_items_ok _ _ _ Hpre). cbn [fst snd].
  cbn [Form.front_matter_items]. rewrite bool_decide_eq_false_2 by done.
  by rewrite run_hooks_outcome, He.
Qed.

(** X7: a failing hook does not undo what the export has done.  When the
    hooks of an item raise, the call raises that error; the items before it
    keep the values their hooks produced and the item itself the value its
    hooks reached; the items after it are untouched; and the stored front
    matter keeps "form_name" and the keys written for the items before. *)
Theorem export_failure_keeps_partial_writes (G : gmap string GlobalObj)
    (n : string) (gs : list Group.t) (md : gmap string pyval) (i : string)
    (pre post : list FormItem.t) (x : FormItem.t) (e : PyError) :
  all_items gs = pre ++ x :: post →
  first_hook_error G pre = None →
  FormItem.html_type x ≠ "submit" →
  hook_error G x = Some e →
  (Form._serialize_as_front_matter lower G (Form.mk n gs (Post md) i)).2 = Raise e
  ∧ Form.front_matter (Form._serialize_as_front_matter lower G (Form.mk n gs (Post md) i)).1
    = Post (write_all (writes lower G pre) (<["form_name" := VStr n]> md))
  ∧ all_items
      (Form.groups (Form._serialize_as_front_matter lower G (Form.mk n gs (Post md) i)).1)
    = (after_hooks G <$> pre) ++ FormItem.set_value x (hooked_value G x) :: post.
Proof.
  intros Hitems Hpre Hx He.
  assert (FormItem.html_type x ∉ CONTROL_TYPES) as Hc by by rewrite control_iff.
  pose proof (front_matter_groups_flat G gs (<["form_name" := VStr n]> md)) as Hflat.
  rewrite Hitems, (front_matter_items_raise _ _ _ _ _ _ Hpre Hc He) in Hflat.
  unfold Form._serialize_as_front_matter.
  cbn [Form.front_matter Form.groups Form.name Form.id].
  destruct (Form.front_matter_groups lower G gs _) as [[gs' md'] r].
  cbn [fst snd Form.groups Form.front_matter] in *.
  injection Hflat as Hi Hm Hr. by subst.
Qed.

(** ** The export in the namespace of the module *)

Section stable_lower.

(** Lowercasing a lowercased text changes nothing, and lowercasing brings
    no space into a text that has none. *)
Hypothesis lower_idempotent : ∀ s, lower (lower s) = lower s.
Hypothesis lower_no_space :
  ∀ s, str_in " "%char s = false → str_in " "%char (lower s) = false.

Lemma slugify_twice s : slugify lower (slugify lower s) = slugify lower s.
Proof.
  unfold slugify. rewrite (replace_without_space (lower _)).
  - apply lower_idempotent.
  - apply lower_no_space, replace_no_space.
Qed.

(** X1: slugify is idempotent, given that lowercasing is idempotent and
    brings no space into a text: a slug is its own slug, so running the
    hook again on a value it produced changes nothing. *)
Theorem slugify_idempotent (s : string) :
  slugify lower (slugify lower s) = slugify lower s.
Proof.
  unfold slugify.
  assert (str_in " "%char (lower (str_replace " "%char "-" s)) = false) as Hclean
    by apply lower_no_space, replace_no_space.
  rewrite (replace_without_space _ Hclean). apply lower_idempotent.
Qed.

(** What a call through the namespace of the module can return: [slugify]
    a slug, [ConfigDict] the empty dictionary. *)
Lemma module_globals_returns hook o v v' :
  module_globals lower ambient !! hook = Some o → py_call o v = Ok v' →
  (∃ s, o = slugify_global lower ∧ v = VStr s ∧ v' = VStr (slugify lower s))
  ∨ v' = VEmptyDict.
Proof.
  intros [Ho| ->]%module_globals_bound Hcall; [|done].
  unfold source_globals in Ho.
  repeat (apply elem_of_cons in Ho as [[= -> ->]|Ho];
          [destruct v as [[|??]|];
           cbn [py_call slugify_global ConfigDict_global rejects_positional] in Hcall;
           first [discriminate
                 | injection Hcall as <-;
                   first [left; eexists; split; [reflexivity|split; reflexivity]
                         | right; reflexivity]]|]).
  by apply elem_of_nil in Ho.
Qed.

Lemma hooks_from_dict hs w :
  apply_hooks (module_globals lower ambient) hs VEmptyDict = Some w →
  w = VEmptyDict.
Proof.
  induction hs as [|h hs IH]; [by intros [= <-]|].
  rewrite apply_hooks_cons.
  destruct (module_globals lower ambient !! h) as [o|] eqn:Ho; [|done].
  destruct (py_call o VEmptyDict) as [v'|] eqn:Hcall; [|done].
  destruct (module_globals_returns _ _ _ _ Ho Hcall)
    as [(s & _ & [=] & _)| ->].
  apply IH.
Qed.

Lemma hooks_from_str hs s t :
  apply_hooks (module_globals lower ambient) hs (VStr s) = Some (VStr t) →
  ∀ s', apply_hooks (module_globals lower ambient) hs (VStr s')
        = Some (VStr (match hs with [] => s' | _ => slugify lower s' end)).
Proof.
  revert s. induction hs as [|h hs IH]; intros s; [done|].
  rewrite apply_hooks_cons.
  destruct (module_globals lower ambient !! h) as [o|] eqn:Ho; [|done].
  destruct (py_call o (VStr s)) as [v'|] eqn:Hcall; [|done].
  destruct (module_globals_returns _ _ _ _ Ho Hcall)
    as [(s0 & -> & [= <-] & ->)| ->].
  - intros Hrest s'. rewrite apply_hooks_cons, Ho.
    cbn [py_call slugify_global]. rewrite (IH _ Hrest).
    destruct hs; [done|]. by rewrite slugify_twice.
  - by intros [=]%hooks_from_dict.
Qed.

(** Hooks that returned once return the same value when run on it again. *)
Lemma hooks_stable hs v w w' :
  apply_hooks (module_globals lower ambient) hs v = Some w →
  apply_hooks (module_globals lower ambient) hs w = Some w' →
  w' = w.
Proof.
  intros H1 H2. destruct w as [t|]; [|by apply hooks_from_dict in H2].
  destruct v as [s|]; [|by apply hooks_from_dict in H1].
  pose proof (hooks_from_str hs s t H1) as Hall.
  rewrite Hall in H1, H2. injection H1 as H1. injection H2 as <-.
  destruct hs; [done|]. by rewrite <- H1, slugify_twice.
Qed.

Lemma hook_error_None G x :
  hook_error G x = None →
  apply_hooks G (FormItem.hooks x) (FormItem.value x) = Some (hooked_value G x).
Proof.
  unfold hook_error, hooked_value. rewrite run_hooks_item. cbn.
  destruct (FormItem.run_hooks_from G _ _) as [w [[]|e]] eqn:Hrun; [|done].
  intros _. by apply run_hooks_from_ok.
Qed.

Lemma first_hook_error_None G items x :
  first_hook_error G items = None →
  x ∈ exported items → hook_error G x = None.
Proof.
  unfold first_hook_error. generalize (exported items) as l. intros l.
  induction l as [|y l IH]; intros Hnone Hx; [by apply elem_of_nil in Hx|].
  cbn [omap list_omap] in Hnone.
  destruct (hook_error G y) as [e|] eqn:Hy; [done|].
  apply elem_of_cons in Hx as [->|Hx]; [done|]. by apply IH.
Qed.

Lemma hooked_twice_stable items x :
  first_hook_error (module_globals lower ambient) items = None →
  first_hook_error (module_globals lower ambient)
    (after_hooks (module_globals lower ambient) <$> items) = None →
  x ∈ exported items →
  hooked_twice (module_globals lower ambient) x
  = hooked_value (module_globals lower ambient) x.
Proof.
  intros H1 H2 Hx.
  pose proof (hook_error_None _ _ (first_hook_error_None _ _ _ H1 Hx)) as Hfirst.
  assert (FormItem.set_value x (hooked_value (module_globals lower ambient) x)
          ∈ exported (after_hooks (module_globals lower ambient) <$> items)) as Hx'.
  { rewrite exported_after. apply list_elem_of_fmap. eauto. }
  pose proof (hook_error_None _ _ (first_hook_error_None _ _ _ H2 Hx')) as Hsecond.
  cbn [FormItem.set_value FormItem.hooks FormItem.value] in Hsecond.
  exact (hooks_stable _ _ _ _ Hfirst Hsecond).
Qed.

Lemma after_hooks_stable items x :
  first_hook_error (module_globals lower ambient) items = None →
  first_hook_error (module_globals lower ambient)
    (after_hooks (module_globals lower ambient) <$> items) = None →
  x ∈ items →
  after_hooks (module_globals lower ambient)
    (after_hooks (module_globals lower ambient) x)
  = after_hooks (module_globals lower ambient) x.
Proof.
  intros H1 H2 Hx. unfold after_hooks at 1. rewrite after_hooks_type.
  case_bool_decide as Hc; [done|].
  assert (x ∈ exported items) as Hex by by apply list_elem_of_filter.
  pose proof (hooked_twice_stable _ _ H1 H2 Hex) as Htwice.
  unfold after_hooks. rewrite bool_decide_eq_false_2 by done.
  unfold hooked_twice in Htwice. rewrite Htwice. by destruct x.
Qed.

(** Writing the same assignments a second time changes nothing. *)
Lemma write_all_twice ws n md :
  write_all ws (<["form_name" := VStr n]> (write_all ws (<["form_name" := VStr n]> md)))
  = write_all ws (<["form_name" := VStr n]> md).
Proof.
  apply map_eq. intros k. rewrite !write_all_lookup.
  destruct (last_write k ws) eqn:Hk; [done|].
  destruct (decide (k = "form_name")) as [->|Hne].
  - by rewrite !lookup_insert_eq.
  - by rewrite lookup_insert_ne, write_all_lookup, Hk by done.
Qed.

Lemma all_items_elem g gs x :
  g ∈ gs → x ∈ Group.items g → x ∈ all_items gs.
Proof.
  induction gs as [|g' gs IH]; intros Hg Hx; [by apply elem_of_nil in Hg|].
  rewrite all_items_cons, elem_of_app.
  apply elem_of_cons in Hg as [->|Hg]; [by left|right; by apply IH].
Qed.

(** X8: in the namespace of the module as it is, and given that lowercasing
    is idempotent and brings no space into a text, a second export that
    returns changes nothing.  The only hooks that return are [slugify],
    which is then idempotent, and [ConfigDict], which keeps the empty
    dictionary; so when two calls in a row both return, the second leaves
    the form as the first left it and returns the same mapping. *)
Theorem export_twice_same_in_module (n : string) (gs : list Group.t)
    (md : gmap string pyval) (i : string) :
  let first :=
    Form._serialize_as_front_matter lower (module_globals lower ambient)
      (Form.mk n gs (Post md) i) in
  let second :=
    Form._serialize_as_front_matter lower (module_globals lower ambient) first.1 in
  returns first.2 = true →
  returns second.2 = true →
  second.1 = first.1 ∧ second.2 = first.2.
Proof.
  intros first second H1 H2. subst second first.
  revert H1 H2.
  generalize hooked_twice_stable after_hooks_stable.
  generalize (module_globals lower ambient) as M.
  intros M Htwice Hafter H1 H2.
  pose proof (returns_first_hook_error _ _ _ _ _ H1) as Herr1.
  rewrite (serialize_front_matter_state _ _ _ _ _ Herr1) in *.
  pose proof (returns_first_hook_error _ _ _ _ _ H2) as Herr2.
  rewrite (serialize_front_matter_state _ _ _ _ _ Herr2).
  rewrite !serialize_front_matter_result, Herr1, Herr2.
  rewrite all_items_after in *. rewrite writes_after.
  assert ((λ x, (lower (FormItem.name x), hooked_twice M x))
            <$> exported (all_items gs)
          = writes lower M (all_items gs)) as ->.
  { unfold writes. apply Forall_fmap_ext, Forall_forall. intros x Hx.
    by rewrite (Htwice _ _ Herr1 Herr2 Hx). }
  rewrite write_all_twice.
  assert (group_after_hooks M <$> (group_after_hooks M <$> gs)
          = group_after_hooks M <$> gs) as ->; [|done].
  rewrite <- list_fmap_compose. apply Forall_fmap_ext, Forall_forall.
  intros g Hg. unfold group_after_hooks at 1 2 3. cbn [Group.name Group.items compose].
  f_equal. rewrite <- list_fmap_compose. apply Forall_fmap_ext, Forall_forall.
  intros x Hx. cbn [compose]. apply (Hafter _ _ Herr1 Herr2).
  by apply (all_items_elem g).
Qed.

End stable_lower.

(** ** Saving to a file *)







(** ** Types are not checked when a form is loaded *)

(** X11: validation accepts every string as [html_type]: [HTML_TYPE] is
    never consulted when an item is built.  An item dictionary with a name
    and a type loads whatever the type, and the item it gives renders
    exactly when the type is a supported one; an unsupported type is only
    found out by the [KeyError] of the rendering. *)
Theorem load_accepts_any_type (D : ClassDefaults) (n ty : string) :
  FormItem.validate D (ODict [ ("name", OStr n); ("html_type", OStr ty) ])
  = Ok (FormItem.mk n (VStr "") "" ty (FormItem_id D) [])
  ∧ returns (FormItem._serialize_as_html
               (FormItem.mk n (VStr "") "" ty (FormItem_id D) []))
    = bool_decide (ty ∈ HTML_TYPE)
  ∧ (ty ∉ HTML_TYPE →
     FormItem._serialize_as_html (FormItem.mk n (VStr "") "" ty (FormItem_id D) [])
     = Raise (KeyError ty)).
Proof.
  split; [reflexivity|]. split.
  - destruct (decide (ty ∈ HTML_TYPE)) as [Hin|Hout].
    + rewrite bool_decide_eq_true_2 by done.
      by destruct (serialize_item_supported
                     (FormItem.mk n (VStr "") "" ty (FormItem_id D) []) Hin)
        as (control & _ & ->).
    + rewrite bool_decide_eq_false_2 by done.
      by rewrite (serialize_item_unsupported
                    (FormItem.mk n (VStr "") "" ty (FormItem_id D) []) Hout).
  - intros Hout.
    exact (serialize_item_unsupported
             (FormItem.mk n (VStr "") "" ty (FormItem_id D) []) Hout).
Qed.

End python.

(** * Instances and failing instances

    What is proved above holds for every lowercasing function and for every
    list of names the interpreter binds.  The instances below take the
    ASCII case folding and the names of a module loaded from a file; the
    failing instances hold for every lowercasing function that folds ASCII
    text as Python does. *)

Lemma slugify_post_example_witness :
  slugify lower_ascii "POST EXAMPLE" = "post-example".
Proof. exact (proj1 (slugify_post_example lower_ascii lower_ascii_agrees)). Defined.

(** C8, as stated, fails in the namespace of the module on the hooks
    [HTML_TYPE; no_such_hook]: the second name is not registered (no name
    of the file and no name of the interpreter, which are written between
    double underscores), and the run stops before it with a [TypeError],
    the set [HTML_TYPE] not being callable. *)
Lemma run_hooks_type_error :
  (∀ lower ambient,
     (FormItem._run_hooks (module_globals lower ambient) constant_hook_item).2
     = Raise TypeError)
  ∧ ¬ ∃ lower ambient,
        Forall (λ k, is_dunder k = true) ambient
        ∧ lookup_error_iff_unregistered (module_globals lower ambient)
            constant_hook_item.
Proof.
  assert (∀ lower ambient,
            (FormItem._run_hooks (module_globals lower ambient) constant_hook_item).2
            = Raise TypeError) as Hstop.
  { intros lower ambient. unfold FormItem._run_hooks, constant_hook_item.
    cbn [FormItem.hooks FormItem.value FormItem.run_hooks_from].
    rewrite (module_globals_source lower ambient "HTML_TYPE" GNotCallable);
      [done|]. vm_compute. reflexivity. }
  split; [done|]. intros (lower & ambient & Hdunder & _ & Hback).
  rewrite Hstop in Hback.
  assert (raises_lookup_error (Raise TypeError : result ()) = true) as Habs;
    [|discriminate].
  apply Hback. exists "no_such_hook". split.
  - apply list_elem_of_lookup. by exists 1.
  - apply module_globals_unbound; [vm_compute; reflexivity|].
    intros Hin. rewrite Forall_forall in Hdunder.
    specialize (Hdunder _ Hin). discriminate.
Qed.

(** C1, as stated, fails on two text fields named "Title" and "TITLE": both
    are assigned to the key "title", which ends with the value of the
    second, so the value of the first is not in the mapping. *)
Lemma serialize_front_matter_clash :
  ¬ ∃ (lower : string → string) (G : gmap string GlobalObj),
      agrees_on_ascii lower ∧ exports_every_item lower G clash_form.
Proof.
  intros (lower & G & Hl & m & Hm & _ & Hitems).
  pose proof (Hl "Title" eq_refl) as Ht.
  pose proof (Hl "TITLE" eq_refl) as HT.
  change (lower_ascii "Title") with "title" in Ht.
  change (lower_ascii "TITLE") with "title" in HT.
  assert ((Form._serialize_as_front_matter lower G clash_form).2
          = Ok (<[lower "TITLE" := VStr "Tea"]>
                  (<[lower "Title" := VStr "Coffee"]>
                     (<["form_name" := VStr "Post"]> ∅)))) as Hser
    by reflexivity.
  rewrite Hser, Ht, HT in Hm. injection Hm as <-.
  specialize (Hitems (FormItem.mk "Title" (VStr "Coffee") "" "text" "item-1" [])).
  assert (FormItem.mk "Title" (VStr "Coffee") "" "text" "item-1" []
          ∈ exported (all_items (Form.groups clash_form))) as Hin.
  { apply list_elem_of_filter. split.
    - intros Hc%control_iff. discriminate.
    - cbn. by left. }
  specialize (Hitems Hin).
  change (hooked_value G _) with (VStr "Coffee") in Hitems.
  cbn [FormItem.name] in Hitems.
  rewrite Ht, lookup_insert_eq in Hitems. discriminate.
Qed.

Lemma serialize_front_matter_twice_witness :
  Form.groups
    (Form._serialize_as_front_matter lower_ascii
       (module_globals lower_ascii file_module_names)
       (Form._serialize_as_front_matter lower_ascii
          (module_globals lower_ascii file_module_names) example_form).1).1
  = (λ g, group_after_hooks (module_globals lower_ascii file_module_names)
            (group_after_hooks (module_globals lower_ascii file_module_names) g))
      <$> Form.groups example_form.
Proof.
  apply (serialize_front_matter_twice lower_ascii
           (module_globals lower_ascii file_module_names)
           (Form.name example_form) (Form.groups example_form) ∅
           (Form.id example_form)); vm_compute; reflexivity.
Defined.

(** C5, as stated, fails on two hooked text fields named "Slug" and "SLUG":
    both calls return and both values are slugified, but the key "slug" of
    the second mapping holds the value of the second field only. *)
Lemma serialize_front_matter_twice_clash :
  ¬ ∃ lower ambient,
      agrees_on_ascii lower
      ∧ second_call_records_all lower (module_globals lower ambient)
          slug_clash_form.
Proof.
  intros (lower & ambient & Hl & f1 & m1 & f2 & m2 & H1 & H2 & _ & Hrec).
  pose proof (module_globals_slugify lower ambient) as Hs.
  revert Hs H1 H2 Hrec. generalize (module_globals lower ambient) as G.
  intros G Hs H1 H2 Hrec.
  pose proof (Hl "Slug" eq_refl) as Hk1.
  pose proof (Hl "SLUG" eq_refl) as Hk2.
  change (lower_ascii "Slug") with "slug" in Hk1.
  change (lower_ascii "SLUG") with "slug" in Hk2.
  set (x1 := FormItem.mk "Slug" (VStr "FIRST POST") "" "text" "item-1" ["slugify"]).
  set (x2 := FormItem.mk "SLUG" (VStr "SECOND POST") "" "text" "item-2" ["slugify"]).
  assert (exported (all_items (Form.groups slug_clash_form)) = [x1; x2]) as Hex
    by (vm_compute; reflexivity).
  assert (hooked_twice G x1 = VStr "first-post") as Htw1.
  { unfold x1. rewrite (hooked_twice_slugify lower G) by done.
    rewrite (slugify_ascii lower "FIRST POST" Hl eq_refl).
    by rewrite (slugify_ascii lower (str_map slug_char "FIRST POST") Hl eq_refl). }
  assert (hooked_twice G x2 = VStr "second-post") as Htw2.
  { unfold x2. rewrite (hooked_twice_slugify lower G) by done.
    rewrite (slugify_ascii lower "SECOND POST" Hl eq_refl).
    by rewrite (slugify_ascii lower (str_map slug_char "SECOND POST") Hl eq_refl). }
  assert (m2 !! "slug" = Some (VStr "second-post")) as Hlast.
  { rewrite (second_export_lookup lower G _ _ _ _ _ _ _ _ "slug" H1 H2).
    change (exported (all_items _))
      with (exported (all_items (Form.groups slug_clash_form))).
    rewrite Hex. cbn [fmap list_fmap]. rewrite Htw1, Htw2.
    unfold x1, x2. cbn [FormItem.name]. by rewrite Hk1, Hk2. }
  specialize (Hrec x1). rewrite Hex in Hrec.
  specialize (Hrec ltac:(by left)).
  rewrite Htw1 in Hrec. unfold x1 in Hrec. cbn [FormItem.name] in Hrec.
  rewrite Hk1, Hlast in Hrec. discriminate.
Qed.

Lemma slugify_idempotent_witness :
  slugify lower_ascii (slugify lower_ascii "POST EXAMPLE")
  = slugify lower_ascii "POST EXAMPLE".
Proof.
  apply (slugify_idempotent lower_ascii lower_ascii_idempotent
           lower_ascii_no_space).
Defined.

Lemma export_mapping_is_stored_witness :
  Form.front_matter
    (Form._serialize_as_front_matter lower_ascii
       (module_globals lower_ascii file_module_names) example_form).1
  = Post (write_all
            (writes lower_ascii (module_globals lower_ascii file_module_names)
               (all_items (Form.groups example_form)))
            (<["form_name" := VStr "Publish a Blog Post"]> ∅)).
Proof.
  apply (export_mapping_is_stored lower_ascii
           (module_globals lower_ascii file_module_names)
           (Form.name example_form) (Form.groups example_form) ∅
           (Form.id example_form)).
  apply serialize_front_matter_result.
Defined.

Lemma export_failure_keeps_partial_writes_witness :
  (Form._serialize_as_front_matter lower_ascii
     (module_globals lower_ascii file_module_names) broken_hook_form).2
  = Raise (KeyError "no_such_hook").
Proof.
  apply (export_failure_keeps_partial_writes lower_ascii
           (module_globals lower_ascii file_module_names)
           (Form.name broken_hook_form) (Form.groups broken_hook_form) ∅
           (Form.id broken_hook_form)
           [ FormItem.mk "Slug" (VStr "FIRST POST") "" "text" "item-1" ["slugify"] ]
           [ FormItem.mk "Note" (VStr "C D") "" "text" "item-3" ["slugify"] ]
           (FormItem.mk "Tag" (VStr "A B") "" "text" "item-2"
              ["slugify"; "no_such_hook"])).
  - reflexivity.
  - vm_compute. reflexivity.
  - discriminate.
  - vm_compute. reflexivity.
Defined.

Lemma export_twice_same_in_module_witness :
  (Form._serialize_as_front_matter lower_ascii
     (module_globals lower_ascii file_module_names)
     (Form._serialize_as_front_matter lower_ascii
        (module_globals lower_ascii file_module_names) example_form).1).2
  = (Form._serialize_as_front_matter lower_ascii
       (module_globals lower_ascii file_module_names) example_form).2.
Proof.
  apply (export_twice_same_in_module lower_ascii file_module_names
           lower_ascii_idempotent lower_ascii_no_space
           (Form.name example_form) (Form.groups example_form) ∅
           (Form.id example_form));
    vm_compute; reflexivity.
Defined.
